(** * The authentication endpoint of the iRODS HTTP API (OIDC fork)

    A shallow embedding of [src/endpoints/authentication/impl.cpp]:
    the form encoder [encode_body], [is_error_response],
    [decode_username_and_password] and the request handler
    [authentication], with the properties of the specification stated
    and proved (or refuted) over that embedding. *)

From Stdlib Require Import ZArith Ascii String List Lia.
From stdpp Require Import base option strings pretty list gmap.

Set Warnings "-register-all".
Local Open Scope string_scope.
Local Open Scope list_scope.
Local Open Scope Z_scope.

(** ** Strings

    [std::string] and [std::string_view] are sequences of 8-bit
    characters: Rocq's [string] over [ascii]. *)

Module Str.

(** [sv.find(needle)]: position of the first occurrence, [None] for [npos]. *)
Definition find (needle hay : string) : option nat := String.index 0 needle hay.

(** [sv.substr(pos)]: the characters from [pos] to the end. *)
Definition substr (pos : nat) (s : string) : string :=
  String.substring pos (String.length s - pos) s.

(** [sv.substr(0, n)]. *)
Definition prefix (n : nat) (s : string) : string := String.substring 0 n s.

Definition empty (s : string) : bool := if decide (s = "") then true else false.

(** [std::isspace] in the "C" locale, which [boost::trim] consults. *)
Definition is_space (c : ascii) : bool :=
  let n := nat_of_ascii c in
  ((n =? 32) || ((9 <=? n) && (n <=? 13)))%nat.

Fixpoint trim_left (s : string) : string :=
  match s with
  | String c r => if is_space c then trim_left r else s
  | EmptyString => EmptyString
  end.

Fixpoint trim_right (s : string) : string :=
  match s with
  | String c r =>
      match trim_right r with
      | EmptyString => if is_space c then EmptyString else String c EmptyString
      | r' => String c r'
      end
  | EmptyString => EmptyString
  end.

(** [boost::trim]. *)
Definition trim (s : string) : string := trim_right (trim_left s).

Fixpoint mem (c : ascii) (s : string) : bool :=
  match s with
  | String d r => Ascii.eqb c d || mem c r
  | EmptyString => false
  end.

(** Pieces of [s] between occurrences of the separator [c]. *)
Fixpoint split (c : ascii) (s : string) : list string :=
  match s with
  | EmptyString => [EmptyString]
  | String d r =>
      if Ascii.eqb d c then EmptyString :: split c r
      else match split c r with
           | piece :: pieces => String d piece :: pieces
           | [] => [String d EmptyString]
           end
  end.

(** The part before the first [c] and the part after it. *)
Fixpoint cut (c : ascii) (s : string) : option (string * string) :=
  match s with
  | EmptyString => None
  | String d r =>
      if Ascii.eqb d c then Some (EmptyString, r)
      else match cut c r with
           | Some (a, b) => Some (String d a, b)
           | None => None
           end
  end.

End Str.

(** ** JSON documents ([nlohmann::json]) *)

Inductive json : Type :=
| JNull
| JBool (b : bool)
| JNum (n : Z)
| JStr (s : string)
| JArr (items : list json)
| JObj (members : list (string * json)).

(** Exceptions, by the two classes the handler's [catch] clauses tell apart:
    [irods::exception], and any other [std::exception]. *)
Inductive exn : Type :=
| irods_exception (what : string)
| std_exception (what : string).

(** What a call comes back with: a value or a thrown exception. *)
Inductive result (A : Type) : Type :=
| Ok (a : A)
| Throw (e : exn).
Arguments Ok {A} a.
Arguments Throw {A} e.

Module Json.

Fixpoint assoc (key : string) (members : list (string * json)) : option json :=
  match members with
  | [] => None
  | (k, v) :: rest => if decide (k = key) then Some v else assoc key rest
  end.

(** [j.find(key)]: [None] stands for [end()]; on a value that is not an
    object [find] returns [end()]. *)
Definition find (key : string) (j : json) : option json :=
  match j with
  | JObj members => assoc key members
  | _ => None
  end.

(** [j.contains(key)]. *)
Definition contains (key : string) (j : json) : bool :=
  match find key j with Some _ => true | None => false end.

(** [j.at(key)]: throws [out_of_range] for a missing key and [type_error]
    on a value that is not an object. *)
Definition at_ (key : string) (j : json) : result json :=
  match j with
  | JObj members =>
      match assoc key members with
      | Some v => Ok v
      | None => Throw (std_exception "json.exception.out_of_range.403")
      end
  | _ => Throw (std_exception "json.exception.type_error.304")
  end.

(** [j.get_ref<const std::string&>()] and [j.get<std::string>()]. *)
Definition get_string (j : json) : result string :=
  match j with
  | JStr s => Ok s
  | _ => Throw (std_exception "json.exception.type_error.302")
  end.

Definition is_array (j : json) : bool :=
  match j with JArr _ => true | _ => false end.

End Json.

(** ** Form encoder *)

(** [body_arguments] is [std::unordered_map<std::string, std::string>].
    A value of this type is the map as the program sees it when it walks
    it from [cbegin] to [cend]: its pairs in iteration order. *)
Definition body_arguments : Type := list (string * string).

Module Percent.

Definition is_alnum (c : ascii) : bool :=
  let n := nat_of_ascii c in
  (((48 <=? n) && (n <=? 57)) || ((65 <=? n) && (n <=? 90)) ||
   ((97 <=? n) && (n <=? 122)))%nat.

Definition is_unreserved (c : ascii) : bool :=
  is_alnum c || Ascii.eqb c "-" || Ascii.eqb c "." || Ascii.eqb c "_" ||
  Ascii.eqb c "~".

Definition hex_digit (n : nat) : ascii :=
  if (n <? 10)%nat then ascii_of_nat (48 + n) else ascii_of_nat (55 + n).

Definition hex_value (c : ascii) : option nat :=
  let n := nat_of_ascii c in
  if ((48 <=? n) && (n <=? 57))%nat then Some (n - 48)%nat
  else if ((65 <=? n) && (n <=? 70))%nat then Some (n - 55)%nat
  else if ((97 <=? n) && (n <=? 102))%nat then Some (n - 87)%nat
  else None.

(** Modelled from the spec: [irods::http::encode] (declared in common.hpp,
    not part of the source under study) "percent-encodes" a key or a
    value: unreserved characters stand for themselves, every other
    character becomes [%XX]. *)
Fixpoint encode (s : string) : string :=
  match s with
  | EmptyString => EmptyString
  | String c r =>
      if is_unreserved c then String c (encode r)
      else
        let n := nat_of_ascii c in
        String "%" (String (hex_digit (n / 16)) (String (hex_digit (n mod 16)) (encode r)))
  end.

(** Modelled from the spec: the inverse of [encode] that the spec calls
    [decode] (no decoder is part of the source under study). *)
Fixpoint decode (s : string) : string :=
  match s with
  | EmptyString => EmptyString
  | String c rest =>
      if Ascii.eqb c "%" then
        match rest with
        | String h (String l r) =>
            match hex_value h, hex_value l with
            | Some a, Some b => String (ascii_of_nat (16 * a + b)) (decode r)
            | _, _ => String c (decode rest)
            end
        | _ => String c (decode rest)
        end
      else String c (decode rest)
  end.

End Percent.

(** The lambda [encode_pair] of [encode_body]. *)
Definition encode_pair (i : string * string) : string :=
  Percent.encode i.1 +:+ "=" +:+ Percent.encode i.2.

(** [encode_body]: [std::transform_reduce] over [next(cbegin) .. cend]
    with the encoded first pair as initial value and the reduction
    [fmt::format("{}&{}", a, b)], taken left to right as the sequential
    overload does.  Dereferencing [cbegin] of an empty map is undefined:
    [None]. *)
Definition encode_body (args : body_arguments) : option string :=
  match args with
  | [] => None
  | first :: rest =>
      Some (fold_left (fun a b => a +:+ "&" +:+ b) (map encode_pair rest)
              (encode_pair first))
  end.

(** Modelled from the spec: [decode] of a form body, the inverse the spec
    pairs with the encoder: split at [&], split each piece at its first
    [=], percent-decode both sides. *)
Definition decode_pair (piece : string) : option (string * string) :=
  match Str.cut "=" piece with
  | Some (k, v) => Some (Percent.decode k, Percent.decode v)
  | None => None
  end.

Definition decode_body (s : string) : option body_arguments :=
  mapM decode_pair (Str.split "&" s).


(** ** The handler's environment *)

Inductive status_type : Type :=
| ok | found | bad_request | unauthorized | method_not_allowed.

(** [response_type]: a Beast response with a string body; the fields the
    handler sets. *)
Record response_type : Type := mkResponse {
  status : status_type;
  version : nat;
  server : option string;
  content_type : option string;
  location : option string;
  keep_alive : bool;
  body : string;
  content_length : option nat }.

Inductive verb : Type := get | post | other_verb.

(** The request, as far as the handler reads it: [method()], the target
    handed to [parse_url], the value of the [authorization] header,
    [version()] and [keep_alive()]. *)
Record request_type : Type := mkRequest {
  method : verb;
  target : string;
  authorization : option string;
  req_version : nat;
  req_keep_alive : bool }.

(** [irods::http::url]. *)
Record url : Type := mkUrl {
  path : string;
  query : gmap string string }.

Inductive authorization_scheme : Type := basic | openid_connect.

Record authenticated_client_info : Type := mkInfo {
  auth_scheme : authorization_scheme;
  username : string;
  password : option string;
  expires_at : Z }.

Record CheckAuthCredentialsInput : Type := mkInput {
  input_username : string;
  input_zone : string;
  input_password : string }.

(** [jwt::decoded_jwt]: the header and the payload of a compact JWT. *)
Record decoded_jwt : Type := mkJwt {
  header_json : json;
  payload_json : json }.

Inductive log_level : Type := log_debug | log_warn | log_error.

(** An argument of a log line, before formatting. *)
Inductive log_arg : Type :=
| AStr (s : string)
| AInt (z : Z)
| AJson (j : json)
| APtr (null : bool).

(** What the handler does to the outside, in order: log lines (format
    string and arguments), the body written to the token endpoint, the
    allocation behind the out-parameter of the credentials check and its
    release. *)
Inductive event : Type :=
| EvLog (lvl : log_level) (fmt : string) (args : list log_arg)
| EvHttpPost (form_body : string)
| EvMalloc
| EvFree.

(** The process around one run of the handler: the effects so far
    (latest first), the token stash, and how often the clock has been
    read. *)
Record state : Type := mkState {
  trace : list event;
  stash : list (string * authenticated_client_info);
  clock_reads : nat }.

(** Configuration and collaborators.  The three configuration documents
    are read-only and hold every key the handler asks for; the
    collaborators are the functions the handler calls and does not
    define. *)
Record world : Type := mkWorld {
  (* oidc_configuration() *)
  client_id : string;
  redirect_uri : string;
  (* oidc_endpoint_configuration() *)
  authorization_endpoint : string;
  issuer : string;
  (* configuration() *)
  timeout_in_seconds : Z;
  rodsadmin_username : string;
  rodsadmin_password : string;
  zone : string;
  (* irods::http::version::server_name *)
  server_name : string;
  (* sizeof the three arrays of CheckAuthCredentialsInput *)
  sizeof_username : nat;
  sizeof_zone : nat;
  sizeof_password : nat;
  (* irods::http::parse_url *)
  parse_url : string -> result url;
  (* irods::base64_decode(in, inlen, out, &outlen): error code, [out] and
     [outlen] after the call *)
  base64_decode : string -> string -> nat -> Z * string * nat;
  (* tcp_res.resolve and tcp_stream.connect *)
  token_endpoint_connect : result unit;
  (* beast::http::write of the request, beast::http::read of the
     response: the response body *)
  token_endpoint_reply : string -> result string;
  (* nlohmann::json::parse *)
  json_parse : string -> result json;
  (* jwt::decode *)
  jwt_decode : string -> result decoded_jwt;
  (* irods::experimental::administration::obfuscate_password *)
  obfuscate_password : string -> string -> result string;
  (* irods::get_connection *)
  get_connection : string -> result unit;
  (* rc_check_auth_credentials: error code and the int it leaves behind
     [correct] ([None]: the pointer stays null) *)
  rc_check_auth_credentials : CheckAuthCredentialsInput -> result (Z * option Z);
  (* std::chrono::steady_clock::now(), by number of earlier readings *)
  steady_clock : nat -> Z;
  (* the key irods::process_stash::insert files a new entry under *)
  stash_key : list (string * authenticated_client_info) -> string;
  (* the order in which an unordered_map built from the given initializer
     list is iterated *)
  iteration_order : list (string * string) -> body_arguments }.

(** ** Effects: state passing with exceptions *)

(** How a piece of the handler ends: with a value, with an exception on
    its way out, or in behaviour the language leaves undefined. *)
Inductive outcome (A : Type) : Type :=
| Returns (a : A)
| Raises (e : exn)
| Undefined.
Arguments Returns {A} a.
Arguments Raises {A} e.
Arguments Undefined {A}.

Definition M (A : Type) : Type := state -> outcome A * state.

Definition ret {A} (a : A) : M A := fun s => (Returns a, s).

Definition bind {A B} (m : M A) (k : A -> M B) : M B := fun s =>
  match m s with
  | (Returns a, s') => k a s'
  | (Raises e, s') => (Raises e, s')
  | (Undefined, s') => (Undefined, s')
  end.

Notation "'let*' x ':=' m 'in' k" := (bind m (fun x => k))
  (at level 10, x pattern, m at level 100, k at level 200).
Notation "'exec' m 'in' k" := (bind m (fun _ => k))
  (at level 10, m at level 100, k at level 200).

Definition lift {A} (r : result A) : M A := fun s =>
  match r with
  | Ok a => (Returns a, s)
  | Throw e => (Raises e, s)
  end.

Definition defined {A} (o : option A) : M A := fun s =>
  match o with
  | Some a => (Returns a, s)
  | None => (Undefined, s)
  end.

Definition emit (e : event) : M unit := fun s =>
  (Returns tt, mkState (e :: trace s) (stash s) (clock_reads s)).

Definition log (lvl : log_level) (fmt : string) (args : list log_arg) : M unit :=
  emit (EvLog lvl fmt args).

(** [try { body } catch (...) { handler }] for the exception classes
    [catches] accepts; any other exception leaves the block. *)
Definition try_catch {A} (body : M A) (catches : exn -> bool) (handler : exn -> M A) : M A :=
  fun s =>
    match body s with
    | (Raises e, s') => if catches e then handler e s' else (Raises e, s')
    | r => r
    end.

Definition is_irods_exception (e : exn) : bool :=
  match e with irods_exception _ => true | std_exception _ => false end.

Definition what (e : exn) : string :=
  match e with irods_exception m => m | std_exception m => m end.

(** [_sess_ptr->send(response)] ends the unit of work; the response is
    the value of the handler. *)
Definition send (r : response_type) : M response_type := ret r.

(** Modelled from the spec: [fail(status)] of common.hpp, not part of the
    source under study, builds the response that carries [status] ("respond
    400") and nothing this handler sets. *)
Definition fail (st : status_type) : response_type :=
  mkResponse st 11 None None None false "" None.

(** [__func__] inside [authentication], captured as [fn]. *)
Definition fn : string := "authentication".

Section Handler.

Context (w : world).

(** [std::chrono::steady_clock::now()]. *)
Definition now : M Z := fun s =>
  (Returns (steady_clock w (clock_reads s)),
   mkState (trace s) (stash s) (S (clock_reads s))).

(** [irods::process_stash::insert(info)]: files [info] under a new key and
    returns the key. *)
Definition process_stash_insert (info : authenticated_client_info) : M string := fun s =>
  let token := stash_key w (stash s) in
  (Returns token, mkState (trace s) (stash s ++ [(token, info)]) (clock_reads s)).

(** [hit_token_endpoint].  The host and the path cut out of the configured
    token endpoint only address the request; a failure to cut them out is
    logged and the function goes on, so they are left out here. *)
Definition hit_token_endpoint (_encoded_body : string) : M json :=
  let* _ := lift (token_endpoint_connect w) in
  exec emit (EvHttpPost _encoded_body) in
  let* res_body := lift (token_endpoint_reply w _encoded_body) in
  exec log log_debug "Got the following resp back: {}" [AStr res_body] in
  lift (json_parse w res_body).

(** [is_error_response]. *)
Definition is_error_response (_response_to_check : json) : M bool :=
  match Json.find "error" _response_to_check with
  | Some error =>
      let '(fmt1, args1) :=
        ("{}: Token request failed! Error: [{}]", [AStr "is_error_response"; AJson error]) in
      (* Optional OAuth 2.0 error parameters follow *)
      let '(fmt2, args2) :=
        match Json.find "error_description" _response_to_check with
        | Some error_description =>
            (fmt1 +:+ ", Error Description [{}]", args1 ++ [AJson error_description])
        | None => (fmt1, args1)
        end in
      let '(fmt3, args3) :=
        match Json.find "error_uri" _response_to_check with
        | Some error_uri => (fmt2 +:+ ", Error URI [{}]", args2 ++ [AJson error_uri])
        | None => (fmt2, args2)
        end in
      exec log log_warn fmt3 args3 in
      ret true
  | None => ret false
  end.

Definition max_creds_size : nat := 128.

Fixpoint zeroes (n : nat) : string :=
  match n with
  | O => EmptyString
  | S n' => String Ascii.zero (zeroes n')
  end.

(** [decode_username_and_password]. *)
Definition decode_username_and_password (_encoded_data : string) : M (string * string) :=
  let authorization := Str.trim _encoded_data in
  exec log log_debug "{}: Authorization value (trimmed): [{}]"
         [AStr "decode_username_and_password"; AStr authorization] in
  let '(ec, creds, size) :=
    base64_decode w authorization (zeroes max_creds_size) max_creds_size in
  exec log log_debug "{}: base64 - error code=[{}], decoded size=[{}]"
         [AStr "decode_username_and_password"; AInt ec; AInt (Z.of_nat size)] in
  let sv := Str.prefix size creds in
  match Str.find ":" sv with
  | None => ret ("", "")
  | Some colon =>
      let username := Str.prefix colon sv in
      let password := Str.substr (colon + 1) sv in
      ret (username, password)
  end.

(** The response every successful branch builds around its bearer token
    (lines 412-419, 519-526 and 586-593 are the same eight lines). *)
Definition token_response (_req : request_type) (bearer_token : string) : response_type :=
  mkResponse ok (req_version _req) (Some (server_name w)) (Some "text/plain")
    None (req_keep_alive _req) bearer_token (Some (String.length bearer_token)).

(** [expires_at = steady_clock::now() + seconds{seconds}] and the insert
    into the stash. *)
Definition issue (scheme : authorization_scheme) (name : string) (pass : option string)
  : M string :=
  let seconds := timeout_in_seconds w in
  let* t := now in
  process_stash_insert (mkInfo scheme name pass (t + seconds)).

(** "Verify 'irods_username' exists" up to the end of the branch: lines
    387-419 of the callback and, word for word, 562-593 of the password
    grant. *)
Definition issue_for_irods_username (_req : request_type) (decoded_token : json)
  : M response_type :=
  if negb (Json.contains "irods_username" decoded_token) then
    let* user :=
      if Json.contains "preferred_username" decoded_token then
        let* v := lift (Json.at_ "preferred_username" decoded_token) in
        lift (Json.get_string v)
      else ret "" in
    exec log log_error "{}: No irods user associated with authenticated user [{}]."
           [AStr fn; AStr user] in
    send (fail bad_request)
  else
    let* v := lift (Json.at_ "irods_username" decoded_token) in
    let* irods_name := lift (Json.get_string v) in
    let* bearer_token := issue openid_connect irods_name None in
    send (token_response _req bearer_token).

(** The first lambda of the GET branch: no parsed URL. *)
Definition initiate (_req : request_type) : M response_type :=
  let args := iteration_order w
    [("client_id", client_id w);
     ("response_type", "code");
     ("scope", "openid");
     ("redirect_uri", redirect_uri w);
     ("state", "placeholder")] in
  let auth_endpoint := authorization_endpoint w in
  let* encoded_args := defined (encode_body args) in
  let encoded_url := auth_endpoint +:+ "?" +:+ encoded_args in
  exec log log_debug "{}: Proper redirect to [{}]" [AStr fn; AStr encoded_url] in
  send (mkResponse found (req_version _req) (Some (server_name w)) None
          (Some encoded_url) (req_keep_alive _req) "" (Some 0%nat)).

Definition is_state_valid (in_state : string) : bool := String.eqb in_state "placeholder".

(** [steady_clock::now() >= exp]. *)
Definition not_before (t : Z) (exp : json) : bool :=
  match exp with
  | JNum e => e <=? t
  | _ => false
  end.

(** "OIDC ID Token Validation" and what follows it in the callback
    (lines 343-419).  The claims are read off the payload of the decoded
    token. *)
Definition id_token_validation (_req : request_type) (decoded_token : json)
  : M response_type :=
  (* 2) Issuer ID MUST match iss *)
  let* iss_claim := lift (Json.at_ "iss" decoded_token) in
  let* iss := lift (Json.get_string iss_claim) in
  if negb (String.eqb iss (issuer w)) then
    exec log log_warn "Erm... This is awkward..." [] in
    send (fail bad_request)
  else
  (* 3) We must be part of the aud (audience) *)
  let* aud := lift (Json.at_ "aud" decoded_token) in
  let* aud_refused :=
    if Json.is_array aud then ret true
    else
      let* aud_string := lift (Json.get_string aud) in
      ret (negb (String.eqb aud_string (client_id w))) in
  if aud_refused then
    exec log log_warn "Erm... This is awkward..." [] in
    send (fail bad_request)
  else
  (* 5) If azp is present, verify we are in the azp claim *)
  let* azp_refused :=
    if Json.contains "azp" decoded_token then
      let* azp_claim := lift (Json.at_ "azp" decoded_token) in
      let* azp_field := lift (Json.get_string azp_claim) in
      ret (negb (String.eqb azp_field (client_id w)))
    else ret false in
  if azp_refused then
    exec log log_warn "Erm... This is awkward..." [] in
    send (fail bad_request)
  else
  (* 9) Current time MUST be less than exp *)
  let* t := now in
  let* exp := lift (Json.at_ "exp" decoded_token) in
  exec (if not_before t exp then (* blah blah... *) ret tt else ret tt) in
  issue_for_irods_username _req decoded_token.

(** The second lambda of the GET branch: the URL parsed. *)
Definition callback (_req : request_type) (url : url) : M response_type :=
  match query url !! "state" with
  | None =>
      exec log log_warn
        "{}: Received an Authorization response with no 'state' query parameter. Ignoring."
        [AStr fn] in
      send (fail bad_request)
  | Some state =>
  if negb (is_state_valid state) then
    exec log log_warn
      "{}: Received an Authorization response with an invalid 'state' query parameter. Ignoring."
      [AStr fn] in
    send (fail bad_request)
  else
  match query url !! "code" with
  | None =>
      match query url !! "error" with
      | None =>
          exec log log_warn
            "{}: Received an Authorization response with no 'code' or 'error' query parameters. Ignoring."
            [AStr fn] in
          send (fail bad_request)
      | Some error =>
          let '(fmt1, args1) := ("{}: Error Code [{}]", [AStr fn; AStr error]) in
          let '(fmt2, args2) :=
            match query url !! "error_description" with
            | Some d => (fmt1 +:+ ", Error Description [{}]", args1 ++ [AStr d])
            | None => (fmt1, args1)
            end in
          let '(fmt3, args3) :=
            match query url !! "error_uri" with
            | Some u => (fmt2 +:+ ", Error URI [{}]", args2 ++ [AStr u])
            | None => (fmt2, args2)
            end in
          exec log log_warn fmt3 args3 in
          send (fail bad_request)
      end
  | Some code =>
  let args := iteration_order w
    [("grant_type", "authorization_code");
     ("client_id", client_id w);
     ("code", code);
     ("redirect_uri", redirect_uri w)] in
  let* encoded_args := defined (encode_body args) in
  let* oidc_response := hit_token_endpoint encoded_args in
  let* is_error := is_error_response oidc_response in
  if is_error then send (fail bad_request) else
  let* id_token := lift (Json.at_ "id_token" oidc_response) in
  let* jwt_token := lift (Json.get_string id_token) in
  let* decoded := lift (jwt_decode w jwt_token) in
  let token_header := header_json decoded in
  let decoded_token := payload_json decoded in
  id_token_validation _req decoded_token
  end
  end.

(** [std::free(correct)]: nothing to release behind a null pointer. *)
Definition free (correct : option Z) : M unit :=
  match correct with
  | Some _ => emit EvFree
  | None => ret tt
  end.

(** The scope of [int* correct{}] under the guard [free_memory]:
    [acquire] runs up to the call that writes [correct], [use] is the
    rest of the scope.  However the scope is left, the guard runs
    [std::free(correct)] with the value [correct] holds by then. *)
Definition with_free_memory {A B} (acquire : M (A * option Z))
    (use : A -> option Z -> M B) : M B := fun s =>
  match acquire s with
  | (Returns (a, correct), s1) =>
      let '(r, s2) := use a correct s1 in (r, (free correct s2).2)
  | (Raises e, s1) => (Raises e, (free None s1).2)
  | (Undefined, s1) => (Undefined, s1)
  end.

(** The body of the [try] block of the Basic branch; its value is what it
    leaves in [login_successful]. *)
Definition check_auth_credentials (username password : string) : M bool :=
  let* obfuscated_password :=
    lift (obfuscate_password w password (rodsadmin_password w)) in
  let input :=
    mkInput (Str.prefix (sizeof_username w) username)
            (Str.prefix (sizeof_zone w) (zone w))
            (Str.prefix (sizeof_password w) obfuscated_password) in
  with_free_memory
    (let* conn := lift (get_connection w (rodsadmin_username w)) in
     let* r := lift (rc_check_auth_credentials w input) in
     exec (match r.2 with Some _ => emit EvMalloc | None => ret tt end) in
     ret r)
    (fun ec correct =>
       if ec <? 0 then
         exec log log_error
           "{}: Error verifying native authentication credentials for user [{}]: error code [{}]."
           [AStr fn; AStr username; AInt ec] in
         ret false
       else
         exec log log_debug "{}: correct = [{}]" [AStr fn; APtr (bool_decide (correct = None))] in
         exec log log_debug "{}: *correct = [{}]" [AStr fn; AInt (default (-1) correct)] in
         ret (bool_decide (correct = Some 1))).

(** The Basic branch after the header value has been decoded. *)
Definition basic_bridge (_req : request_type) (username password : string)
  : M response_type :=
  if Str.empty username || Str.empty password then send (fail unauthorized) else
  let* login_successful :=
    try_catch (check_auth_credentials username password)
      (fun _ => true)
      (fun e =>
         exec log log_error
           "{}: Error verifying native authentication credentials for user [{}]: {}"
           [AStr fn; AStr username; AStr (what e)] in
         ret false) in
  if negb login_successful then send (fail unauthorized) else
  let* bearer_token := issue basic username (Some password) in
  send (token_response _req bearer_token).

(** The [iRODS ] branch after the header value has been decoded: OAuth 2.0
    Resource Owner Password Credentials Grant. *)
Definition password_grant (_req : request_type) (username password : string)
  : M response_type :=
  if Str.empty username || Str.empty password then send (fail unauthorized) else
  let args := iteration_order w
    [("client_id", client_id w);
     ("grant_type", "password");
     ("scope", "openid");
     ("username", username);
     ("password", password)] in
  let* encoded_args := defined (encode_body args) in
  let* oidc_response := hit_token_endpoint encoded_args in
  let* is_error := is_error_response oidc_response in
  if is_error then send (fail bad_request) else
  let* id_token := lift (Json.at_ "id_token" oidc_response) in
  let* jwt_token := lift (Json.get_string id_token) in
  let* decoded := lift (jwt_decode w jwt_token) in
  let decoded_token := payload_json decoded in
  issue_for_irods_username _req decoded_token.

Definition basic_auth_scheme_prefix_size : nat := 6.

(** The lambda of the POST branch. *)
Definition post_credentials (_req : request_type) : M response_type :=
  match authorization _req with
  | None => send (fail bad_request)
  | Some value =>
      exec log log_debug "{}: Authorization value: [{}]" [AStr fn; AStr value] in
      match Str.find "Basic " value with
      | Some pos =>
          let* (username, password) :=
            decode_username_and_password
              (Str.substr (pos + basic_auth_scheme_prefix_size) value) in
          basic_bridge _req username password
      | None =>
          match Str.find "iRODS " value with
          | Some alt_method =>
              let* (username, password) :=
                decode_username_and_password
                  (Str.substr (alt_method + basic_auth_scheme_prefix_size) value) in
              password_grant _req username password
          | None => send (fail bad_request)
          end
      end
  end.

(** [authentication]: the endpoint's entry function.  Each lambda handed
    to [background_task] is run to its end here. *)
Definition authentication (_req : request_type) : M response_type :=
  match method _req with
  | get =>
      let* parsed :=
        try_catch
          (let* url := lift (parse_url w (target _req)) in ret (Some url))
          is_irods_exception
          (fun _ => ret None) in
      match parsed with
      | None => initiate _req
      | Some url => callback _req url
      end
  | post => post_credentials _req
  | other_verb => send (fail method_not_allowed)
  end.

End Handler.

(** ** The base64 decoder of the iRODS runtime

    [irods::base64_decode] comes with the iRODS libraries the repository
    links against (irods/base64.hpp).  The handler above is written over
    any decoder; the library's routine is written out here for the
    examples.  It skips characters outside the alphabet, accepts [=] only
    at the end, writes each completed quantum to [out] as it goes, and
    stores the decoded length in [outlen] only when it returns [OK]. *)
Module Base64.

Definition OK : Z := 0.
Definition BUFFER_OVERFLOW : Z := 6.
Definition INVALID_PACKET : Z := 7.

(** The table [map]: 0..63 for the alphabet, 254 for [=], 255 otherwise. *)
Definition map (c : ascii) : Z :=
  let n := Z.of_nat (nat_of_ascii c) in
  if (65 <=? n) && (n <=? 90) then n - 65
  else if (97 <=? n) && (n <=? 122) then n - 71
  else if (48 <=? n) && (n <=? 57) then n + 4
  else if n =? 43 then 62
  else if n =? 47 then 63
  else if n =? 61 then 254
  else 255.

Definition byte (t : Z) : ascii := ascii_of_nat (Z.to_nat (Z.land t 255)).

(** The loop over the input: [t] the bits collected, [y] the characters
    of the current quantum, [g] the bytes the quantum yields, [written]
    the bytes stored in [out] so far.  The result is the error code, what
    has been stored, and the new [outlen] if one is assigned. *)
Fixpoint loop (input : string) (t : Z) (y : nat) (g : Z) (written : string)
    (outlen : nat) : Z * string * option nat :=
  match input with
  | EmptyString =>
      if decide (y = 0%nat) then (OK, written, Some (String.length written))
      else (INVALID_PACKET, written, None)
  | String ch rest =>
      let c := map ch in
      if c =? 255 then loop rest t y g written outlen
      else
        let is_pad := c =? 254 in
        let g' := if is_pad then g - 1 else g in
        if is_pad && (g' <? 0) then (INVALID_PACKET, written, None)
        else if negb is_pad && negb (g =? 3) then (INVALID_PACKET, written, None)
        else
          let c := if is_pad then 0 else c in
          let t := Z.lor (Z.shiftl t 6) c in
          if decide (S y = 4%nat) then
            if Z.of_nat (String.length written) + g' >? Z.of_nat outlen
            then (BUFFER_OVERFLOW, written, None)
            else
              let b1 := String (byte (Z.shiftr t 16)) EmptyString in
              let b2 := if g' >? 1 then String (byte (Z.shiftr t 8)) EmptyString else EmptyString in
              let b3 := if g' >? 2 then String (byte t) EmptyString else EmptyString in
              loop rest 0 0 g' (written +:+ b1 +:+ b2 +:+ b3) outlen
          else loop rest t (S y) g' written outlen
  end.

Definition base64_decode (input out : string) (outlen : nat) : Z * string * nat :=
  let '(ec, written, new_len) := loop input 0 0 3 "" outlen in
  (ec, written +:+ Str.substr (String.length written) out, default outlen new_len).

End Base64.

(** ** A concrete deployment, for the examples *)
Module Example.

Definition parse_target (target : string) : result url :=
  match Str.cut "?" target with
  | None => Throw (irods_exception "curl_url_get: no query")
  | Some (p, q) =>
      match decode_body q with
      | Some pairs => Ok (mkUrl p (list_to_map pairs))
      | None => Throw (irods_exception "curl_url_set: malformed input")
      end
  end.

Definition uuid (entries : list (string * authenticated_client_info)) : string :=
  "token-" +:+ pretty (length entries).

(** A deployment whose identity provider answers every exchange with
    [reply], whose tokens carry the claims [claims], and whose backend
    answers every credentials check with [rpc]. *)
Definition deployment (reply claims : json) (rpc : result (Z * option Z)) : world :=
  {| client_id := "irods_http_api";
     redirect_uri := "https://gateway.example/irods-http-api/authenticate";
     authorization_endpoint := "https://idp.example/realms/irods/auth";
     issuer := "https://idp.example/realms/irods";
     timeout_in_seconds := 3600;
     rodsadmin_username := "rods";
     rodsadmin_password := "rods";
     zone := "tempZone";
     server_name := "irods_http_api";
     sizeof_username := 64;
     sizeof_zone := 64;
     sizeof_password := 250;
     parse_url := parse_target;
     base64_decode := Base64.base64_decode;
     token_endpoint_connect := Ok tt;
     token_endpoint_reply := fun _ => Ok "(response body)";
     json_parse := fun _ => Ok reply;
     jwt_decode := fun _ => Ok (mkJwt (JObj [("alg", JStr "RS256")]) claims);
     obfuscate_password := fun pw key => Ok (key +:+ pw);
     get_connection := fun _ => Ok tt;
     rc_check_auth_credentials := fun _ => rpc;
     steady_clock := fun n => 1000 + Z.of_nat n;
     stash_key := uuid;
     iteration_order := @rev _ |}.

Definition alice_claims (exp : Z) : json :=
  JObj [("iss", JStr "https://idp.example/realms/irods");
        ("aud", JStr "irods_http_api");
        ("exp", JNum exp);
        ("irods_username", JStr "alice")].

Definition id_token_reply : json := JObj [("id_token", JStr "eyJ.eyJ.sig")].

Definition start : state := mkState [] [] 0.

(** An identity provider that vouches for alice until [exp]. *)
Definition alice_world (exp : Z) : world :=
  deployment id_token_reply (alice_claims exp) (Ok (0, None)).

Definition alice_jwt (exp : Z) : decoded_jwt :=
  mkJwt (JObj [("alg", JStr "RS256")]) (alice_claims exp).

Definition callback_request : request_type :=
  mkRequest get "/authentication?state=placeholder&code=abc123" None 11 true.

Definition callback_url : url :=
  mkUrl "/authentication" (list_to_map [("state", "placeholder"); ("code", "abc123")]).

Definition post_request (value : string) : request_type :=
  mkRequest post "/authentication" (Some value) 11 true.

(** A backend that answers the credentials check with [rpc]. *)
Definition backend_world (rpc : result (Z * option Z)) : world :=
  deployment id_token_reply (alice_claims 2000) rpc.

(** Claims of another issuer, for other audiences, long expired, that
    still name an [irods_username]. *)
Definition foreign_claims : json :=
  JObj [("iss", JStr "https://elsewhere.example");
        ("aud", JArr [JStr "someone-else"]);
        ("azp", JStr "someone-else");
        ("exp", JNum 10);
        ("irods_username", JStr "alice")].

Definition password_form : string :=
  "password=secret&username=alice&scope=openid&grant_type=password&client_id=irods_http_api".

Definition callback_form : string :=
  "redirect_uri=https%3A%2F%2Fgateway.example%2Firods-http-api%2Fauthenticate&code=abc123&client_id=irods_http_api&grant_type=authorization_code".

End Example.


(** * The vocabulary of the properties *)

(** The state after [evs] (latest first) have been added to the trace. *)
Definition with_events (evs : list event) (s : state) : state :=
  mkState (evs ++ trace s) (stash s) (clock_reads s).

(** The state after one reading of the clock. *)
Definition tick (s : state) : state :=
  mkState (trace s) (stash s) (S (clock_reads s)).

(** The state after a login has been filed in the stash: the clock is
    read once, and the entry expires [timeout_in_seconds] after that
    reading. *)
Definition issued (w : world) (scheme : authorization_scheme) (name : string)
    (pass : option string) (s : state) : state :=
  mkState (trace s)
    (stash s ++
       [(stash_key w (stash s),
         mkInfo scheme name pass (steady_clock w (clock_reads s) + timeout_in_seconds w))])
    (S (clock_reads s)).

(** The document with every member but those named [error] removed. *)
Definition only_error_member (doc : json) : json :=
  match doc with
  | JObj members => JObj (filter (fun kv => kv.1 = "error") members)
  | _ => doc
  end.

(** What [decode_username_and_password] looks at after the decoder has
    run: the first [size] bytes of [creds]. *)
Definition decoded_view (w : world) (_encoded_data : string) : string :=
  let '(_, creds, size) :=
    base64_decode w (Str.trim _encoded_data) (zeroes max_creds_size) max_creds_size in
  Str.prefix size creds.

(** The error code the decoder hands back, which is logged. *)
Definition decoder_error_code (w : world) (_encoded_data : string) : Z :=
  (base64_decode w (Str.trim _encoded_data) (zeroes max_creds_size) max_creds_size).1.1.

(** What [decode_username_and_password] returns for [data]. *)
Definition credentials (w : world) (data : string) : string * string :=
  match Str.cut ":" (decoded_view w data) with
  | Some (u, p) => (u, p)
  | None => ("", "")
  end.

(** The two lines [decode_username_and_password] logs, latest first. *)
Definition decode_log (w : world) (data : string) : list event :=
  [EvLog log_debug "{}: base64 - error code=[{}], decoded size=[{}]"
     [AStr "decode_username_and_password";
      AInt (decoder_error_code w data);
      AInt (Z.of_nat
              (base64_decode w (Str.trim data) (zeroes max_creds_size) max_creds_size).2)];
   EvLog log_debug "{}: Authorization value (trimmed): [{}]"
     [AStr "decode_username_and_password"; AStr (Str.trim data)]].

(** An [unordered_map] built from an initializer list with distinct keys
    holds the listed pairs and nothing else, in whatever order. *)
Definition iterates_its_pairs (w : world) : Prop :=
  forall l : list (string * string), NoDup l.*1 -> iteration_order w l ≡ₚ l.

(** The arguments of the redirect to the identity provider. *)
Definition redirect_arguments (w : world) : list (string * string) :=
  [("client_id", client_id w);
   ("response_type", "code");
   ("scope", "openid");
   ("redirect_uri", redirect_uri w);
   ("state", "placeholder")].

(** The [302 Found] that carries [encoded_url]. *)
Definition redirect_to (w : world) (_req : request_type) (encoded_url : string) : response_type :=
  mkResponse found (req_version _req) (Some (server_name w)) None
    (Some encoded_url) (req_keep_alive _req) "" (Some 0%nat).

(** The arguments of the exchange of an authorization code. *)
Definition exchange_arguments (w : world) (code : string) : list (string * string) :=
  [("grant_type", "authorization_code");
   ("client_id", client_id w);
   ("code", code);
   ("redirect_uri", redirect_uri w)].

(** The arguments of the password grant. *)
Definition password_arguments (w : world) (username password : string)
  : list (string * string) :=
  [("client_id", client_id w);
   ("grant_type", "password");
   ("scope", "openid");
   ("username", username);
   ("password", password)].

(** The token endpoint is reached with the form encoding [form] of
    [args] and its reply parses as [doc]. *)
Definition exchange_returns (w : world) (args : list (string * string))
    (form : string) (doc : json) : Prop :=
  encode_body (iteration_order w args) = Some form /\
  token_endpoint_connect w = Ok tt /\
  exists raw, token_endpoint_reply w form = Ok raw /\ json_parse w raw = Ok doc.

(** The four ways in which a parsed callback is refused before a token
    is validated. *)
Inductive callback_refused (w : world) (u : url) : Prop :=
| state_absent :
    query u !! "state" = None -> callback_refused w u
| state_unexpected (st : string) :
    query u !! "state" = Some st -> st <> "placeholder" -> callback_refused w u
| code_absent :
    query u !! "code" = None -> callback_refused w u
| exchange_refused (code form : string) (doc : json) :
    query u !! "state" = Some "placeholder" ->
    query u !! "code" = Some code ->
    exchange_returns w (exchange_arguments w code) form doc ->
    Json.contains "error" doc = true ->
    callback_refused w u.

(** The claims of an ID token that passes every step of the validation as
    the code performs it, with [name] as its [irods_username]. *)
Record id_token_accepted (w : world) (claims : json) (name : string) : Prop := {
  iss_expected : Json.find "iss" claims = Some (JStr (issuer w));
  aud_expected : Json.find "aud" claims = Some (JStr (client_id w));
  azp_expected :
    Json.find "azp" claims = None \/
    Json.find "azp" claims = Some (JStr (client_id w));
  exp_present : exists exp, Json.find "exp" claims = Some exp;
  irods_username_present : Json.find "irods_username" claims = Some (JStr name) }.

(** The claims the validation turns down: an issuer other than the
    configured one; an audience that is an array; an audience other than
    the configured client; an authorized party other than the configured
    client. *)
Inductive claims_refused (w : world) (claims : json) : Prop :=
| iss_differs (iss : string) :
    Json.find "iss" claims = Some (JStr iss) ->
    iss <> issuer w ->
    claims_refused w claims
| aud_is_array (iss : string) (items : list json) :
    Json.find "iss" claims = Some (JStr iss) ->
    Json.find "aud" claims = Some (JArr items) ->
    claims_refused w claims
| aud_differs (iss aud : string) :
    Json.find "iss" claims = Some (JStr iss) ->
    Json.find "aud" claims = Some (JStr aud) ->
    aud <> client_id w ->
    claims_refused w claims
| azp_differs (iss aud azp : string) :
    Json.find "iss" claims = Some (JStr iss) ->
    Json.find "aud" claims = Some (JStr aud) ->
    Json.find "azp" claims = Some (JStr azp) ->
    azp <> client_id w ->
    claims_refused w claims.

(** [needle] is read at position [pos] of [hay]. *)
Definition occurs_at (needle hay : string) (pos : nat) : Prop :=
  String.substring pos (String.length needle) hay = needle.

Definition first_occurrence (needle hay : string) (pos : nat) : Prop :=
  occurs_at needle hay pos /\ forall q, (q < pos)%nat -> ~ occurs_at needle hay q.

Definition occurs_nowhere (needle hay : string) : Prop :=
  forall q, ~ occurs_at needle hay q.

(** The line the POST branch logs before it looks for a scheme. *)
Definition header_log (value : string) : list event :=
  [EvLog log_debug "{}: Authorization value: [{}]" [AStr fn; AStr value]].

(** The input of the credentials check for [username] and the obfuscated
    password. *)
Definition credentials_input (w : world) (username obfuscated_password : string)
  : CheckAuthCredentialsInput :=
  mkInput (Str.prefix (sizeof_username w) username)
          (Str.prefix (sizeof_zone w) (zone w))
          (Str.prefix (sizeof_password w) obfuscated_password).

(** The credentials check is reached and returns an error code that is not
    negative and a flag that is 1. *)
Definition backend_accepts (w : world) (username password : string) : Prop :=
  exists obfuscated ec,
    obfuscate_password w password (rodsadmin_password w) = Ok obfuscated /\
    get_connection w (rodsadmin_username w) = Ok tt /\
    rc_check_auth_credentials w (credentials_input w username obfuscated) = Ok (ec, Some 1) /\
    0 <= ec.

(** The exception [e] is thrown on the way to the credentials check or by
    it. *)
Definition backend_throws (w : world) (username password : string) (e : exn) : Prop :=
  obfuscate_password w password (rodsadmin_password w) = Throw e \/
  exists obfuscated,
    obfuscate_password w password (rodsadmin_password w) = Ok obfuscated /\
    (get_connection w (rodsadmin_username w) = Throw e \/
     (get_connection w (rodsadmin_username w) = Ok tt /\
      rc_check_auth_credentials w (credentials_input w username obfuscated) = Throw e)).

(** The blocks alive after the events, taken oldest first, starting from
    [live] blocks; [None] when a block is released that is not there. *)
Fixpoint heap_after (oldest_first : list event) (live : nat) : option nat :=
  match oldest_first with
  | [] => Some live
  | EvMalloc :: rest => heap_after rest (S live)
  | EvFree :: rest =>
      match live with
      | O => None
      | S live' => heap_after rest live'
      end
  | _ :: rest => heap_after rest live
  end.

(** Every block allocated during [evs] (latest first) is released, once. *)
Definition released (evs : list event) : Prop :=
  heap_after (rev evs) 0 = Some 0%nat.

(** The line both [catch] clauses of the Basic branch log. *)
Definition caught_log (username : string) (e : exn) : event :=
  EvLog log_error
    "{}: Error verifying native authentication credentials for user [{}]: {}"
    [AStr fn; AStr username; AStr (what e)].

(** ** What a run leaves behind *)

(** The stash is as it was. *)
Definition same_stash (s s' : state) : Prop := stash s' = stash s.

(** A login as the handler files it: the password is kept for the Basic
    scheme and for no other. *)
Definition login_entry (w : world) (info : authenticated_client_info) : Prop :=
  (exists n, expires_at info = steady_clock w n + timeout_in_seconds w) /\
  (auth_scheme info = basic <-> password info <> None).

(** How a run that started in [s] may end: with an answer other than
    [200] and the stash as it was; with the [200] that carries the key of
    one new entry, added behind the entries that were there; or without
    an answer and the stash as it was. *)
Definition files_at_most_one_login (w : world) (_req : request_type) (s : state)
    (res : outcome response_type * state) : Prop :=
  match res.1 with
  | Returns r =>
      (status r <> ok /\ stash res.2 = stash s) \/
      (r = token_response w _req (stash_key w (stash s)) /\
       exists info,
         login_entry w info /\
         stash res.2 = stash s ++ [(stash_key w (stash s), info)])
  | Raises _ => stash res.2 = stash s
  | Undefined => stash res.2 = stash s
  end.

(** [m] takes every state to one that [R] relates it to, however it
    ends. *)
Definition respects (R : state -> state -> Prop) {A} (m : M A) : Prop :=
  forall s, R s (m s).2.

(** How a piece of the handler that answers may end, whatever state it
    starts in. *)
Definition files (w : world) (_req : request_type) (m : M response_type) : Prop :=
  forall s, files_at_most_one_login w _req s (m s).

(** The trace has grown by events that release every block they
    allocate. *)
Definition heap_settled (s s' : state) : Prop :=
  exists evs, trace s' = evs ++ trace s /\ released evs.

(** ** Ways in which a run ends without an answer *)

(** The exchange of [form] at the token endpoint throws [e]: the endpoint
    is not reached, the reply is not read, or the reply is not JSON. *)
Definition exchange_throws (w : world) (form : string) (e : exn) : Prop :=
  token_endpoint_connect w = Throw e \/
  (token_endpoint_connect w = Ok tt /\
   (token_endpoint_reply w form = Throw e \/
    exists raw, token_endpoint_reply w form = Ok raw /\ json_parse w raw = Throw e)).

(** Claims that lack one of the members the validation reads with [at]:
    the issuer; the audience, below the expected issuer; the expiry,
    below the expected issuer, audience and authorized party. *)
Inductive claims_incomplete (w : world) (claims : json) : Prop :=
| iss_missing :
    Json.find "iss" claims = None ->
    claims_incomplete w claims
| aud_missing :
    Json.find "iss" claims = Some (JStr (issuer w)) ->
    Json.find "aud" claims = None ->
    claims_incomplete w claims
| exp_missing :
    Json.find "iss" claims = Some (JStr (issuer w)) ->
    Json.find "aud" claims = Some (JStr (client_id w)) ->
    (Json.find "azp" claims = None \/
     Json.find "azp" claims = Some (JStr (client_id w))) ->
    Json.find "exp" claims = None ->
    claims_incomplete w claims.

(** ** Further deployments, for the examples *)
Module Scenario.

(** [w] with another token endpoint behind it. *)
Definition with_token_endpoint (w : world) (connect : result unit)
    (reply : string -> result string) (parse : string -> result json) : world :=
  {| client_id := client_id w;
     redirect_uri := redirect_uri w;
     authorization_endpoint := authorization_endpoint w;
     issuer := issuer w;
     timeout_in_seconds := timeout_in_seconds w;
     rodsadmin_username := rodsadmin_username w;
     rodsadmin_password := rodsadmin_password w;
     zone := zone w;
     server_name := server_name w;
     sizeof_username := sizeof_username w;
     sizeof_zone := sizeof_zone w;
     sizeof_password := sizeof_password w;
     parse_url := parse_url w;
     base64_decode := base64_decode w;
     token_endpoint_connect := connect;
     token_endpoint_reply := reply;
     json_parse := parse;
     jwt_decode := jwt_decode w;
     obfuscate_password := obfuscate_password w;
     get_connection := get_connection w;
     rc_check_auth_credentials := rc_check_auth_credentials w;
     steady_clock := steady_clock w;
     stash_key := stash_key w;
     iteration_order := iteration_order w |}.

(** The identity provider cannot be reached. *)
Definition offline : world :=
  with_token_endpoint (Example.alice_world 2000)
    (Throw (std_exception "connect: Connection refused"))
    (fun _ => Ok "") (fun _ => Ok JNull).

(** Alice's claims without an expiry. *)
Definition claims_without_exp : json :=
  JObj [("iss", JStr "https://idp.example/realms/irods");
        ("aud", JStr "irods_http_api");
        ("irods_username", JStr "alice")].

(** Claims of a user the identity provider knows and iRODS does not. *)
Definition claims_without_irods_username : json :=
  JObj [("iss", JStr "https://idp.example/realms/irods");
        ("aud", JStr "irods_http_api");
        ("exp", JNum 2000);
        ("preferred_username", JStr "bob")].

End Scenario.

(** ** Shapes of strings *)

(** Nothing but white space. *)
Fixpoint blank (s : string) : bool :=
  match s with
  | EmptyString => true
  | String c r => Str.is_space c && blank r
  end.

(** ** Requests to the token endpoint *)

Definition is_post (e : event) : bool :=
  match e with
  | EvHttpPost _ => true
  | _ => false
  end.

(** The number of requests written to the token endpoint during [evs]. *)
Definition posts (evs : list event) : nat := length (filter is_post evs).

(** The trace has grown, and not by a request to the token endpoint. *)
Definition no_post (s s' : state) : Prop :=
  exists evs, trace s' = evs ++ trace s /\ posts evs = 0%nat.

(** ** A URL parser that runs out of memory *)
Module Failing.

(** [Example.alice_world] with a [parse_url] that throws [std::bad_alloc]. *)
Definition out_of_memory : world :=
  {| client_id := client_id (Example.alice_world 2000);
     redirect_uri := redirect_uri (Example.alice_world 2000);
     authorization_endpoint := authorization_endpoint (Example.alice_world 2000);
     issuer := issuer (Example.alice_world 2000);
     timeout_in_seconds := timeout_in_seconds (Example.alice_world 2000);
     rodsadmin_username := rodsadmin_username (Example.alice_world 2000);
     rodsadmin_password := rodsadmin_password (Example.alice_world 2000);
     zone := zone (Example.alice_world 2000);
     server_name := server_name (Example.alice_world 2000);
     sizeof_username := sizeof_username (Example.alice_world 2000);
     sizeof_zone := sizeof_zone (Example.alice_world 2000);
     sizeof_password := sizeof_password (Example.alice_world 2000);
     parse_url := fun _ => Throw (std_exception "std::bad_alloc");
     base64_decode := base64_decode (Example.alice_world 2000);
     token_endpoint_connect := token_endpoint_connect (Example.alice_world 2000);
     token_endpoint_reply := token_endpoint_reply (Example.alice_world 2000);
     json_parse := json_parse (Example.alice_world 2000);
     jwt_decode := jwt_decode (Example.alice_world 2000);
     obfuscate_password := obfuscate_password (Example.alice_world 2000);
     get_connection := get_connection (Example.alice_world 2000);
     rc_check_auth_credentials := rc_check_auth_credentials (Example.alice_world 2000);
     steady_clock := steady_clock (Example.alice_world 2000);
     stash_key := stash_key (Example.alice_world 2000);
     iteration_order := iteration_order (Example.alice_world 2000) |}.

End Failing.

(** [m] writes at most one request to the token endpoint. *)
Definition posts_at_most_once {A} (m : M A) : Prop :=
  forall s, exists evs, trace (m s).2 = evs ++ trace s /\ (posts evs <= 1)%nat.

(** * Properties *)

(** ** Facts about strings *)
Section StringFacts.

#[local] Arguments String.append !_ _ / : simpl nomatch.

Lemma append_assoc (a b c : string) : (a +:+ b) +:+ c = a +:+ (b +:+ c).
Proof. induction a as [|x a IH]; simpl; [reflexivity | now rewrite IH]. Qed.

Lemma append_nil_r (a : string) : a +:+ "" = a.
Proof. induction a as [|x a IH]; simpl; [reflexivity | now rewrite IH]. Qed.

Lemma mem_append c a b : Str.mem c (a +:+ b) = Str.mem c a || Str.mem c b.
Proof.
  induction a as [|x a IH]; simpl; [reflexivity |].
  rewrite IH. now rewrite orb_assoc.
Qed.

Lemma ascii_eqb_sym (a b : ascii) : Ascii.eqb a b = Ascii.eqb b a.
Proof.
  destruct (Ascii.eqb_spec a b) as [->|Hne].
  - now rewrite Ascii.eqb_refl.
  - symmetry. apply Ascii.eqb_neq. congruence.
Qed.

(** Cutting at the first separator undoes gluing with it. *)
Lemma cut_append c a b :
  Str.mem c a = false -> Str.cut c (a +:+ String c b) = Some (a, b).
Proof.
  induction a as [|x a IH]; simpl; intros Hm.
  - now rewrite Ascii.eqb_refl.
  - apply orb_false_elim in Hm as [Hx Ha].
    rewrite ascii_eqb_sym, Hx. now rewrite IH.
Qed.

Lemma cut_None c s : Str.cut c s = None <-> Str.mem c s = false.
Proof.
  induction s as [|x s IH]; simpl; [tauto |].
  rewrite (ascii_eqb_sym c x).
  destruct (Ascii.eqb x c); simpl; [split; discriminate |].
  destruct (Str.cut c s) as [[a b]|]; [|tauto].
  split; [discriminate |]. intros H. apply IH in H. discriminate.
Qed.

Lemma cut_Some c s a b :
  Str.cut c s = Some (a, b) -> s = a +:+ String c b /\ Str.mem c a = false.
Proof.
  revert a b. induction s as [|x s IH]; simpl; intros a b; [discriminate |].
  destruct (Ascii.eqb_spec x c) as [->|Hne].
  - intros [= <- <-]. auto.
  - destruct (Str.cut c s) as [[a' b']|]; [|discriminate].
    intros [= <- <-]. destruct (IH a' b' eq_refl) as [-> Hm].
    split; [reflexivity |]. simpl. rewrite Hm.
    assert (Ascii.eqb c x = false) as -> by (apply Ascii.eqb_neq; congruence).
    reflexivity.
Qed.

Lemma split_no_sep c s : Str.mem c s = false -> Str.split c s = [s].
Proof.
  induction s as [|x s IH]; simpl; [reflexivity |]. intros Hm.
  apply orb_false_elim in Hm as [Hx Hs].
  rewrite ascii_eqb_sym, Hx, (IH Hs). reflexivity.
Qed.

Lemma split_append c a b :
  Str.mem c a = false -> Str.split c (a +:+ String c b) = a :: Str.split c b.
Proof.
  induction a as [|x a IH]; simpl; intros Hm.
  - now rewrite Ascii.eqb_refl.
  - apply orb_false_elim in Hm as [Hx Ha].
    rewrite ascii_eqb_sym, Hx, (IH Ha). reflexivity.
Qed.

Lemma concat_cons2 sep (a b : string) (l : list string) :
  String.concat sep (a :: b :: l) = a +:+ sep +:+ String.concat sep (b :: l).
Proof. reflexivity. Qed.

(** Splitting undoes joining when no piece holds the separator. *)
Lemma split_concat c piece pieces :
  Forall (fun p => Str.mem c p = false) (piece :: pieces) ->
  Str.split c (String.concat (String c "") (piece :: pieces)) = piece :: pieces.
Proof.
  revert piece. induction pieces as [|q pieces IH]; intros piece Hall.
  - simpl. apply split_no_sep. now inversion Hall.
  - inversion Hall as [|? ? Hp Hrest]; subst.
    rewrite concat_cons2.
    change (String c "" +:+ String.concat (String c "") (q :: pieces))
      with (String c (String.concat (String c "") (q :: pieces))).
    rewrite split_append by assumption. now rewrite IH.
Qed.

(** The left-to-right reduction of [encode_body] is a join. *)
Lemma fold_join sep (init : string) (l : list string) :
  fold_left (fun a b => a +:+ sep +:+ b) l init = String.concat sep (init :: l).
Proof.
  revert init. induction l as [|b l IH]; intros init; [reflexivity |].
  simpl fold_left. rewrite IH.
  destruct l as [|c l]; simpl; [reflexivity |].
  now rewrite !append_assoc.
Qed.

End StringFacts.

(** ** The form encoder *)
Section FormEncoder.

#[local] Arguments String.append !_ _ / : simpl nomatch.

Import Percent.

Lemma unreserved_plain c :
  is_unreserved c = true ->
  Ascii.eqb c "%" = false /\ Ascii.eqb "&" c = false /\ Ascii.eqb "=" c = false.
Proof.
  destruct c as [[] [] [] [] [] [] [] []]; vm_compute; intros H;
    try discriminate H; auto.
Qed.

Lemma hex_roundtrip c :
  let n := nat_of_ascii c in
  hex_value (hex_digit (n / 16)) = Some (n / 16)%nat /\
  hex_value (hex_digit (n mod 16)) = Some (n mod 16)%nat /\
  ascii_of_nat (16 * (n / 16) + n mod 16) = c.
Proof. destruct c as [[] [] [] [] [] [] [] []]; vm_compute; auto. Qed.

Lemma hex_digit_plain c d :
  let n := nat_of_ascii c in
  (Ascii.eqb d "&" = true \/ Ascii.eqb d "=" = true) ->
  Ascii.eqb d (hex_digit (n / 16)) = false /\ Ascii.eqb d (hex_digit (n mod 16)) = false.
Proof.
  intros n [Hd|Hd]; apply Ascii.eqb_eq in Hd; subst d n;
    destruct c as [[] [] [] [] [] [] [] []]; vm_compute; auto.
Qed.

(** Decoding undoes percent-encoding. *)
Lemma decode_encode s : decode (encode s) = s.
Proof.
  induction s as [|c r IH]; [reflexivity |].
  cbn [encode]. destruct (is_unreserved c) eqn:Hu.
  - destruct (unreserved_plain c Hu) as (Hp & _).
    cbn [decode]. now rewrite Hp, IH.
  - destruct (hex_roundtrip c) as (Hh & Hl & Hc).
    cbv zeta. cbn [decode]. rewrite Ascii.eqb_refl, Hh, Hl, Hc, IH. reflexivity.
Qed.

(** An encoded key or value holds neither separator of the form body. *)
Lemma encode_plain d s :
  (Ascii.eqb d "&" = true \/ Ascii.eqb d "=" = true) -> Str.mem d (encode s) = false.
Proof.
  intros Hd. induction s as [|c r IH]; [reflexivity |].
  cbn [encode]. destruct (is_unreserved c) eqn:Hu.
  - destruct (unreserved_plain c Hu) as (_ & Ha & He).
    cbn [Str.mem]. rewrite IH, orb_false_r.
    destruct Hd as [Hd|Hd]; apply Ascii.eqb_eq in Hd; now subst d.
  - destruct (hex_digit_plain c d Hd) as (Hh & Hl).
    cbv zeta. cbn [Str.mem]. rewrite Hh, Hl, IH.
    destruct Hd as [Hd|Hd]; apply Ascii.eqb_eq in Hd; now subst d.
Qed.

Lemma decode_encode_pair p : decode_pair (encode_pair p) = Some p.
Proof.
  destruct p as [k v]. unfold decode_pair, encode_pair. cbn [fst snd].
  change ("=" +:+ encode v) with (String "=" (encode v)).
  rewrite cut_append by (apply encode_plain; right; reflexivity).
  now rewrite !decode_encode.
Qed.

Lemma encode_pair_plain p : Str.mem "&" (encode_pair p) = false.
Proof.
  unfold encode_pair. rewrite !mem_append.
  rewrite !encode_plain by (left; reflexivity). reflexivity.
Qed.

Lemma decode_pairs l : mapM decode_pair (map encode_pair l) = Some l.
Proof.
  induction l as [|p l IH]; [reflexivity |].
  cbn [map mapM]. rewrite decode_encode_pair, IH. reflexivity.
Qed.

Lemma encode_body_cons (first : string * string) (rest : list (string * string)) :
  encode_body (first :: rest) =
  Some (String.concat "&" (map encode_pair (first :: rest))).
Proof. unfold encode_body. now rewrite fold_join. Qed.

(** C7 (as amended).  For a map that is not empty, walked from its first
    pair [first] through the remaining pairs [rest] in its iteration
    order, the encoder returns the percent-encoded [key=value] pieces
    joined with [&] in that order, and decoding the result gives back the
    pairs in that order, hence the same set of pairs. *)
Theorem encode_body_joins_and_decodes (first : string * string) (rest : list (string * string)) :
  exists form_body,
    encode_body (first :: rest) = Some form_body /\
    form_body = String.concat "&" (map encode_pair (first :: rest)) /\
    decode_body form_body = Some (first :: rest).
Proof.
  exists (String.concat "&" (map encode_pair (first :: rest))).
  split; [| split; [reflexivity |]].
  - apply encode_body_cons.
  - unfold decode_body. cbn [map].
    rewrite split_concat.
    + apply (decode_pairs (first :: rest)).
    + change (Forall (fun p => Str.mem "&" p = false) (map encode_pair (first :: rest))).
      apply List.Forall_forall. intros x Hx. apply in_map_iff in Hx as (p & <- & _).
      apply encode_pair_plain.
Qed.

(** C7 (as stated) fails: the output is not a function of the set of
    pairs.  Two maps that hold the same two pairs and are walked in
    different orders are encoded to different strings. *)
Lemma encode_body_depends_on_iteration_order :
  let m1 := [("a", "1"); ("b", "2")] in
  let m2 := [("b", "2"); ("a", "1")] in
  m1 ≡ₚ m2 /\ NoDup m1.*1 /\
  encode_body m1 = Some "a=1&b=2" /\ encode_body m2 = Some "b=2&a=1" /\
  encode_body m1 <> encode_body m2.
Proof.
  cbv zeta. split; [apply perm_swap |]. split; [compute_done |].
  split; [reflexivity |]. split; [reflexivity |]. discriminate.
Qed.

End FormEncoder.

(** ** [is_error_response] *)
Section ErrorResponse.

Lemma assoc_filter key (members : list (string * json)) :
  Json.assoc key (filter (fun kv => kv.1 = key) members) = Json.assoc key members.
Proof.
  induction members as [|[k v] members IH]; [reflexivity |].
  rewrite filter_cons. cbn [fst]. destruct (decide (k = key)) as [->|Hne].
  - cbn [Json.assoc]. now destruct (decide (key = key)).
  - cbn [Json.assoc]. destruct (decide (k = key)); [contradiction | exact IH].
Qed.

Lemma is_error_response_value (doc : json) (s : state) :
  (is_error_response doc s).1 = Returns (Json.contains "error" doc).
Proof.
  unfold is_error_response, Json.contains.
  destruct (Json.find "error" doc); [| reflexivity].
  destruct (Json.find "error_description" doc), (Json.find "error_uri" doc);
    reflexivity.
Qed.

(** C9.  [is_error_response] returns true exactly when the document has
    a top-level member [error], false exactly when it has none, and the
    answer is the one it gives for the document stripped of every other
    member: [error_description], [error_uri] and the rest are only
    logged. *)
Theorem is_error_response_iff_error_member (doc : json) (s : state) :
  ((is_error_response doc s).1 = Returns true <->
     exists error, Json.find "error" doc = Some error) /\
  ((is_error_response doc s).1 = Returns false <-> Json.find "error" doc = None) /\
  (is_error_response doc s).1 = (is_error_response (only_error_member doc) s).1.
Proof.
  rewrite !is_error_response_value. unfold Json.contains.
  split; [| split].
  - destruct (Json.find "error" doc) as [v|]; split.
    + eauto.
    + reflexivity.
    + discriminate.
    + intros [v Hv]. discriminate.
  - destruct (Json.find "error" doc) as [v|]; split; congruence.
  - destruct doc; try reflexivity.
    cbn [only_error_member Json.find]. now rewrite assoc_filter.
Qed.

End ErrorResponse.

(** ** [decode_username_and_password] *)
Section Credentials.

#[local] Arguments String.append !_ _ / : simpl nomatch.

Lemma find_char c s :
  Str.find (String c "") s =
  match Str.cut c s with
  | Some (a, _) => Some (String.length a)
  | None => None
  end.
Proof.
  unfold Str.find. induction s as [|b s IH]; [reflexivity |].
  cbn [String.index String.prefix Str.cut].
  destruct (ascii_dec c b) as [->|Hne].
  - rewrite Ascii.eqb_refl. now destruct s.
  - assert (Ascii.eqb b c = false) as -> by (apply Ascii.eqb_neq; congruence).
    rewrite IH. now destruct (Str.cut c s) as [[a r]|].
Qed.

Lemma substring_all s : String.substring 0 (String.length s) s = s.
Proof. induction s as [|c s IH]; simpl; [reflexivity | now rewrite IH]. Qed.

Lemma prefix_append a b : Str.prefix (String.length a) (a +:+ b) = a.
Proof.
  unfold Str.prefix. induction a as [|c a IH]; simpl.
  - now destruct b.
  - now rewrite IH.
Qed.

Lemma substr_append a c b : Str.substr (String.length a + 1) (a +:+ String c b) = b.
Proof.
  unfold Str.substr. induction a as [|x a IH].
  - simpl. rewrite Nat.sub_0_r. apply substring_all.
  - simpl. apply IH.
Qed.

Lemma decode_username_and_password_view (w : world) (input : string) (s : state) :
  (decode_username_and_password w input s).1 =
  Returns match Str.cut ":" (decoded_view w input) with
          | Some (u, p) => (u, p)
          | None => ("", "")
          end.
Proof.
  unfold decode_username_and_password, decoded_view.
  destruct (base64_decode w (Str.trim input) (zeroes max_creds_size) max_creds_size)
    as [[ec creds] size].
  unfold bind, log, emit. cbn [fst snd].
  rewrite find_char.
  destruct (Str.cut ":" (Str.prefix size creds)) as [[u p]|] eqn:Hcut; [| reflexivity].
  apply cut_Some in Hcut as [-> _].
  cbn [fst ret]. now rewrite prefix_append, substr_append.
Qed.

(** C8 (as amended).  Applied to the base64 encoding of "alice:secret"
    the function returns ("alice", "secret").  For every decoder and
    every input, whatever the decoder's error code: when the bytes the
    decoder leaves in view hold no colon the function returns ("", ""),
    and otherwise it splits them at the first colon into username and
    password. *)
Theorem decode_username_and_password_splits_view (w : world) (input : string) (s : state) :
  (decode_username_and_password (Example.deployment JNull JNull (Ok (0, None)))
     "YWxpY2U6c2VjcmV0" s).1 = Returns ("alice", "secret") /\
  ((Str.mem ":" (decoded_view w input) = false /\
    (decode_username_and_password w input s).1 = Returns ("", "")) \/
   (exists u p,
      decoded_view w input = u +:+ ":" +:+ p /\ Str.mem ":" u = false /\
      (decode_username_and_password w input s).1 = Returns (u, p))).
Proof.
  split; [rewrite decode_username_and_password_view; reflexivity |].
  rewrite decode_username_and_password_view.
  destruct (Str.cut ":" (decoded_view w input)) as [[u p]|] eqn:Hcut.
  - right. exists u, p. apply cut_Some in Hcut as [Hv Hu]. auto.
  - left. apply cut_None in Hcut. auto.
Qed.

(** C8 (as stated) fails on malformed base64.  With the decoder of the
    iRODS runtime, the encoding of "alice:secret" followed by one stray
    character is refused (INVALID_PACKET), yet the function returns the
    username "alice" and a password: "secret" and the untouched rest of
    the 128-byte buffer. *)
Lemma malformed_base64_yields_credentials :
  let w := Example.deployment JNull JNull (Ok (0, None)) in
  let input := "YWxpY2U6c2VjcmV0Y" in
  decoder_error_code w input = Base64.INVALID_PACKET /\
  (decode_username_and_password w input Example.start).1 =
    Returns ("alice", "secret" +:+ zeroes 116) /\
  (decode_username_and_password w input Example.start).1 <> Returns ("", "").
Proof.
  cbv zeta. split; [reflexivity |]. split; [reflexivity |].
  vm_compute. discriminate.
Qed.

End Credentials.

(** ** The dispatcher *)

Ltac run := cbn [bind ret lift defined emit log send try_catch is_irods_exception
                 Json.get_string Json.is_array fst snd negb orb andb].

Section Dispatch.

Lemma permuted_encode_body (l l' : list (string * string)) :
  l' ≡ₚ l -> l <> [] ->
  encode_body l' = Some (String.concat "&" (map encode_pair l')).
Proof.
  intros Hp Hne. destruct l' as [|first rest].
  - apply Permutation_nil_l in Hp. congruence.
  - apply encode_body_cons.
Qed.

(** C6.  A GET request whose target [parse_url] refuses (no query, or a
    query it cannot parse: it throws [irods::exception] for both) is
    answered [302 Found]; the Location is the configured authorization
    endpoint, a question mark, and the form encoding of the five pairs
    client_id, response_type=code, scope=openid, redirect_uri and state,
    client_id and redirect_uri being the configured ones; no token is
    issued. *)
Theorem initiate_redirects (w : world) (_req : request_type) (s : state) (e : string) :
  iterates_its_pairs w ->
  method _req = get ->
  parse_url w (target _req) = Throw (irods_exception e) ->
  exists args s',
    args ≡ₚ redirect_arguments w /\
    authentication w _req s =
      (Returns (redirect_to w _req
         (authorization_endpoint w +:+ "?" +:+ String.concat "&" (map encode_pair args))),
       s') /\
    stash s' = stash s.
Proof.
  intros Hord Hget Hparse.
  assert (NoDup (redirect_arguments w).*1) as Hnd by compute_done.
  specialize (Hord _ Hnd).
  exists (iteration_order w (redirect_arguments w)).
  eexists. split; [exact Hord |].
  unfold authentication. rewrite Hget. unfold try_catch at 1, bind at 1 2.
  rewrite Hparse. run. unfold initiate.
  fold (redirect_arguments w). unfold bind at 1.
  rewrite (permuted_encode_body _ _ Hord) by discriminate.
  run. split; reflexivity.
Qed.

Lemma deployment_iterates_its_pairs reply claims rpc :
  iterates_its_pairs (Example.deployment reply claims rpc).
Proof. intros l _. symmetry. apply Permutation_rev. Qed.

(** Scenario A: [GET /authentication]. *)
Lemma initiate_redirects_witness :
  let w := Example.deployment JNull JNull (Ok (0, None)) in
  let _req := mkRequest get "/authentication" None 11 true in
  iterates_its_pairs w /\
  method _req = get /\
  parse_url w (target _req) = Throw (irods_exception "curl_url_get: no query") /\
  exists args s',
    args ≡ₚ redirect_arguments w /\
    authentication w _req Example.start =
      (Returns (redirect_to w _req
         (authorization_endpoint w +:+ "?" +:+ String.concat "&" (map encode_pair args))),
       s') /\
    stash s' = stash Example.start.
Proof.
  cbv zeta.
  split; [apply deployment_iterates_its_pairs |].
  split; [reflexivity |]. split; [reflexivity |].
  apply (initiate_redirects
           (Example.deployment JNull JNull (Ok (0, None)))
           (mkRequest get "/authentication" None 11 true)
           Example.start "curl_url_get: no query");
    [apply deployment_iterates_its_pairs | reflexivity | reflexivity].
Defined.

(** *** Refusals of the callback *)

Lemma hit_token_endpoint_returns w form doc s :
  token_endpoint_connect w = Ok tt ->
  (exists raw, token_endpoint_reply w form = Ok raw /\ json_parse w raw = Ok doc) ->
  exists raw,
    hit_token_endpoint w form s =
    (Returns doc,
     with_events [EvLog log_debug "Got the following resp back: {}" [AStr raw];
                  EvHttpPost form] s).
Proof.
  intros Hc (raw & Hr & Hp). exists raw.
  unfold hit_token_endpoint, bind. rewrite Hc. run. rewrite Hr. run.
  rewrite Hp. reflexivity.
Qed.

Lemma is_error_response_true doc s :
  Json.contains "error" doc = true ->
  exists fmt args,
    is_error_response doc s = (Returns true, with_events [EvLog log_warn fmt args] s).
Proof.
  unfold Json.contains, is_error_response. intros H.
  destruct (Json.find "error" doc); [| discriminate].
  destruct (Json.find "error_description" doc), (Json.find "error_uri" doc);
    do 2 eexists; reflexivity.
Qed.

Lemma is_error_response_false doc s :
  Json.find "error" doc = None -> is_error_response doc s = (Returns false, s).
Proof. unfold is_error_response. now intros ->. Qed.

Lemma placeholder_valid : is_state_valid "placeholder" = true.
Proof. reflexivity. Qed.

Lemma enter_callback w _req u s :
  method _req = get ->
  parse_url w (target _req) = Ok u ->
  authentication w _req s = callback w _req u s.
Proof.
  intros Hget Hparse. unfold authentication. rewrite Hget.
  unfold try_catch, bind. rewrite Hparse. reflexivity.
Qed.

(** C3.  A GET request whose query parses is answered [400] when the
    state parameter is absent, when it is not the expected value, when
    the code parameter is absent (with or without an error parameter),
    and when the token endpoint answers the exchange with an error
    response; the stash is left as it was: no bearer token is issued. *)
Theorem callback_refusals (w : world) (_req : request_type) (u : url) (s : state) :
  method _req = get ->
  parse_url w (target _req) = Ok u ->
  callback_refused w u ->
  exists evs,
    authentication w _req s = (Returns (fail bad_request), with_events evs s) /\
    status (fail bad_request) = bad_request /\
    stash (with_events evs s) = stash s.
Proof.
  intros Hget Hparse Href. rewrite (enter_callback _ _ _ _ Hget Hparse).
  unfold callback.
  destruct Href as [Hst | st Hst Hne | Hcode | code form doc Hst Hcode Hex Herr].
  - rewrite Hst. eexists [_]. repeat split.
  - rewrite Hst. apply String.eqb_neq in Hne. unfold is_state_valid. rewrite Hne.
    eexists [_]. repeat split.
  - destruct (query u !! "state") as [st|]; [| eexists [_]; repeat split].
    destruct (is_state_valid st); [| eexists [_]; repeat split].
    rewrite Hcode. cbn [negb].
    destruct (query u !! "error") as [err|]; [| eexists [_]; repeat split].
    destruct (query u !! "error_description"), (query u !! "error_uri");
      eexists [_]; repeat split.
  - rewrite Hst, Hcode. cbv beta iota. rewrite placeholder_valid.
    cbn [negb]. cbv zeta. fold (exchange_arguments w code).
    destruct Hex as (Hform & Hconn & Hreply).
    unfold bind at 1. rewrite Hform. run.
    destruct (hit_token_endpoint_returns w form doc s Hconn Hreply) as (raw & Hhit).
    unfold bind at 1. rewrite Hhit.
    destruct (is_error_response_true doc
                (with_events [EvLog log_debug "Got the following resp back: {}" [AStr raw];
                              EvHttpPost form] s) Herr) as (fmt & args & Hie).
    unfold bind at 1. rewrite Hie. run.
    eexists [_; _; _]. repeat split.
Qed.

(** Scenario C: [GET /authentication?state=wrong]. *)
Lemma callback_refusals_witness :
  let w := Example.deployment JNull JNull (Ok (0, None)) in
  let _req := mkRequest get "/authentication?state=wrong" None 11 true in
  let u := mkUrl "/authentication" (list_to_map [("state", "wrong")]) in
  method _req = get /\
  parse_url w (target _req) = Ok u /\
  callback_refused w u /\
  exists evs,
    authentication w _req Example.start =
      (Returns (fail bad_request), with_events evs Example.start) /\
    status (fail bad_request) = bad_request /\
    stash (with_events evs Example.start) = stash Example.start.
Proof.
  cbv zeta.
  assert (callback_refused (Example.deployment JNull JNull (Ok (0, None)))
            (mkUrl "/authentication" (list_to_map [("state", "wrong")]))) as Href.
  { apply (state_unexpected _ _ "wrong"); [reflexivity | discriminate]. }
  split; [reflexivity |]. split; [reflexivity |]. split; [exact Href |].
  apply (callback_refusals
           (Example.deployment JNull JNull (Ok (0, None)))
           (mkRequest get "/authentication?state=wrong" None 11 true)
           (mkUrl "/authentication" (list_to_map [("state", "wrong")]))
           Example.start);
    [reflexivity | reflexivity | exact Href].
Defined.

(** *** The callback that ends in a token *)

Lemma at_found key j v : Json.find key j = Some v -> Json.at_ key j = Ok v.
Proof. destruct j; try discriminate. cbn [Json.find Json.at_]. now intros ->. Qed.

Lemma contains_found key j v : Json.find key j = Some v -> Json.contains key j = true.
Proof. unfold Json.contains. now intros ->. Qed.

Lemma contains_missing key j : Json.find key j = None -> Json.contains key j = false.
Proof. unfold Json.contains. now intros ->. Qed.

Lemma issue_run w scheme name pass s :
  issue w scheme name pass s = (Returns (stash_key w (stash s)), issued w scheme name pass s).
Proof. reflexivity. Qed.

Lemma issue_for_irods_username_found w _req claims name s :
  Json.find "irods_username" claims = Some (JStr name) ->
  issue_for_irods_username w _req claims s =
  (Returns (token_response w _req (stash_key w (stash s))),
   issued w openid_connect name None s).
Proof.
  intros H. unfold issue_for_irods_username.
  rewrite (contains_found _ _ _ H). cbn [negb].
  unfold bind. rewrite (at_found _ _ _ H). reflexivity.
Qed.

Lemma issue_for_irods_username_missing w _req claims s :
  Json.find "irods_username" claims = None ->
  (Json.find "preferred_username" claims = None \/
   exists user, Json.find "preferred_username" claims = Some (JStr user)) ->
  exists evs,
    issue_for_irods_username w _req claims s =
    (Returns (fail bad_request), with_events evs s).
Proof.
  intros H Hp. unfold issue_for_irods_username.
  rewrite (contains_missing _ _ H). cbn [negb]. unfold bind.
  destruct Hp as [Hp | [user Hp]].
  - rewrite (contains_missing _ _ Hp). now eexists [_].
  - rewrite (contains_found _ _ _ Hp), (at_found _ _ _ Hp). now eexists [_].
Qed.

Lemma validation_accepts w _req claims name s :
  id_token_accepted w claims name ->
  id_token_validation w _req claims s =
  (Returns (token_response w _req (stash_key w (stash s))),
   issued w openid_connect name None (tick s)).
Proof.
  intros [Hiss Haud Hazp [exp Hexp] Hname].
  unfold id_token_validation.
  unfold bind at 1. rewrite (at_found _ _ _ Hiss). run.
  rewrite String.eqb_refl. cbn [negb].
  unfold bind at 1. rewrite (at_found _ _ _ Haud). run.
  rewrite String.eqb_refl. cbn [negb Json.is_array Json.get_string]. run.
  assert ((if Json.contains "azp" claims
           then
             let* azp_claim := lift (Json.at_ "azp" claims) in
             let* azp_field := lift (Json.get_string azp_claim) in
             ret (negb (String.eqb azp_field (client_id w)))
           else ret false) s = (Returns false, s)) as Hazp'.
  { destruct Hazp as [Hazp | Hazp].
    - now rewrite (contains_missing _ _ Hazp).
    - rewrite (contains_found _ _ _ Hazp). unfold bind.
      rewrite (at_found _ _ _ Hazp). run. now rewrite String.eqb_refl. }
  unfold bind at 1. rewrite Hazp'. cbv beta iota.
  unfold bind at 1. unfold now at 1. cbv beta iota. fold (tick s).
  unfold bind at 1. rewrite (at_found _ _ _ Hexp). run.
  assert ((if not_before (steady_clock w (clock_reads s)) exp then ret tt else ret tt)
            (tick s) = (Returns tt, tick s)) as Hexpired by now destruct (not_before _ _).
  unfold bind at 1. rewrite Hexpired. cbv beta iota.
  rewrite (issue_for_irods_username_found w _req claims name (tick s) Hname).
  reflexivity.
Qed.

Lemma callback_reaches_validation w _req u s code form doc tok jwt :
  query u !! "state" = Some "placeholder" ->
  query u !! "code" = Some code ->
  exchange_returns w (exchange_arguments w code) form doc ->
  Json.find "error" doc = None ->
  Json.find "id_token" doc = Some (JStr tok) ->
  jwt_decode w tok = Ok jwt ->
  exists raw,
    callback w _req u s =
    id_token_validation w _req (payload_json jwt)
      (with_events [EvLog log_debug "Got the following resp back: {}" [AStr raw];
                    EvHttpPost form] s).
Proof.
  intros Hst Hcode (Hform & Hconn & Hreply) Herr Hid Hjwt.
  destruct (hit_token_endpoint_returns w form doc s Hconn Hreply) as (raw & Hhit).
  exists raw. unfold callback.
  rewrite Hst, Hcode. cbv beta iota. rewrite placeholder_valid.
  cbn [negb]. cbv zeta. fold (exchange_arguments w code).
  unfold bind at 1. rewrite Hform. run.
  unfold bind at 1. rewrite Hhit.
  unfold bind at 1. rewrite (is_error_response_false _ _ Herr).
  unfold bind at 1. rewrite (at_found _ _ _ Hid). run.
  unfold bind at 1. rewrite Hjwt. run. reflexivity.
Qed.

(** C1.  A GET request whose query carries the expected state and a code,
    for which the token endpoint returns a document without [error] whose
    [id_token] passes the validation, is answered [200] with content type
    [text/plain] and the bearer token as body, not empty when the stash
    hands out keys that are not empty; the stash receives one entry: the
    scheme [openid_connect], the token's [irods_username], and an expiry
    of the configured timeout after the clock reading taken for it. *)
Theorem callback_issues_token (w : world) (_req : request_type) (u : url) (s : state)
    (code form : string) (doc : json) (tok : string) (jwt : decoded_jwt) (name : string) :
  method _req = get ->
  parse_url w (target _req) = Ok u ->
  query u !! "state" = Some "placeholder" ->
  query u !! "code" = Some code ->
  exchange_returns w (exchange_arguments w code) form doc ->
  Json.find "error" doc = None ->
  Json.find "id_token" doc = Some (JStr tok) ->
  jwt_decode w tok = Ok jwt ->
  id_token_accepted w (payload_json jwt) name ->
  stash_key w (stash s) <> "" ->
  exists r s',
    authentication w _req s = (Returns r, s') /\
    status r = ok /\
    content_type r = Some "text/plain" /\
    body r = stash_key w (stash s) /\
    body r <> "" /\
    stash s' =
      stash s ++
        [(body r,
          mkInfo openid_connect name None
            (steady_clock w (S (clock_reads s)) + timeout_in_seconds w))].
Proof.
  intros Hget Hparse Hst Hcode Hex Herr Hid Hjwt Hacc Hkey.
  rewrite (enter_callback _ _ _ _ Hget Hparse).
  destruct (callback_reaches_validation w _req u s code form doc tok jwt
              Hst Hcode Hex Herr Hid Hjwt) as (raw & ->).
  rewrite (validation_accepts _ _ _ name _ Hacc).
  do 2 eexists. split; [reflexivity |]. repeat split. exact Hkey.
Qed.

(** Scenario B: [GET /authentication?state=placeholder&code=abc123]
    against an identity provider that answers with an ID token for
    alice. *)
Lemma callback_issues_token_witness :
  let w := Example.alice_world 2000 in
  let _req := Example.callback_request in
  let u := Example.callback_url in
  (parse_url w (target _req) = Ok u /\
   query u !! "state" = Some "placeholder" /\
   query u !! "code" = Some "abc123" /\
   exchange_returns w (exchange_arguments w "abc123") Example.callback_form
     Example.id_token_reply /\
   id_token_accepted w (payload_json (Example.alice_jwt 2000)) "alice") /\
  exists r s',
    authentication w _req Example.start = (Returns r, s') /\
    status r = ok /\
    content_type r = Some "text/plain" /\
    body r = stash_key w (stash Example.start) /\
    body r <> "" /\
    stash s' =
      stash Example.start ++
        [(body r,
          mkInfo openid_connect "alice" None
            (steady_clock w (S (clock_reads Example.start)) + timeout_in_seconds w))].
Proof.
  cbv zeta.
  assert (exchange_returns (Example.alice_world 2000)
            (exchange_arguments (Example.alice_world 2000) "abc123")
            Example.callback_form Example.id_token_reply) as Hex.
  { split; [reflexivity |]. split; [reflexivity |].
    exists "(response body)". split; reflexivity. }
  assert (id_token_accepted (Example.alice_world 2000)
            (payload_json (Example.alice_jwt 2000)) "alice") as Hacc.
  { constructor; try reflexivity; [left; reflexivity | eexists; reflexivity]. }
  split.
  { split; [reflexivity |]. split; [reflexivity |]. split; [reflexivity |].
    split; [exact Hex | exact Hacc]. }
  apply (callback_issues_token (Example.alice_world 2000) Example.callback_request
           Example.callback_url Example.start "abc123" Example.callback_form
           Example.id_token_reply "eyJ.eyJ.sig" (Example.alice_jwt 2000) "alice");
    [reflexivity | reflexivity | reflexivity | reflexivity | exact Hex
    | reflexivity | reflexivity | reflexivity | exact Hacc | discriminate].
Defined.

(** *** Refusals of the ID token *)

Lemma refused_at_iss w _req claims iss s :
  Json.find "iss" claims = Some (JStr iss) ->
  iss <> issuer w ->
  id_token_validation w _req claims s =
  (Returns (fail bad_request),
   with_events [EvLog log_warn "Erm... This is awkward..." []] s).
Proof.
  intros Hiss Hne. unfold id_token_validation.
  unfold bind at 1. rewrite (at_found _ _ _ Hiss). run.
  apply String.eqb_neq in Hne. rewrite Hne. reflexivity.
Qed.

Lemma passes_iss w _req claims s :
  Json.find "iss" claims = Some (JStr (issuer w)) ->
  forall aud, Json.find "aud" claims = Some aud ->
  (Json.is_array aud = true \/
   exists a, aud = JStr a /\ a <> client_id w) ->
  id_token_validation w _req claims s =
  (Returns (fail bad_request),
   with_events [EvLog log_warn "Erm... This is awkward..." []] s).
Proof.
  intros Hiss aud Haud Hbad. unfold id_token_validation.
  unfold bind at 1. rewrite (at_found _ _ _ Hiss). run.
  rewrite String.eqb_refl. cbn [negb].
  unfold bind at 1. rewrite (at_found _ _ _ Haud). run.
  destruct Hbad as [Harr | (a & -> & Hne)].
  - rewrite Harr. reflexivity.
  - run. apply String.eqb_neq in Hne. rewrite Hne. reflexivity.
Qed.

(** The refusals of the validation the code does make: each is answered
    [400]. *)
Lemma validation_refuses (w : world) (_req : request_type) (claims : json) (s : state) :
  claims_refused w claims ->
  id_token_validation w _req claims s =
  (Returns (fail bad_request),
   with_events [EvLog log_warn "Erm... This is awkward..." []] s).
Proof.
  intros [iss Hiss Hne | iss items Hiss Haud | iss aud Hiss Haud Hne
          | iss aud azp Hiss Haud Hazp Hne].
  - now apply (refused_at_iss w _req claims iss).
  - destruct (String.eqb_spec iss (issuer w)) as [->|Hi].
    + apply (passes_iss w _req claims s Hiss _ Haud). now left.
    + now apply (refused_at_iss w _req claims iss).
  - destruct (String.eqb_spec iss (issuer w)) as [->|Hi].
    + apply (passes_iss w _req claims s Hiss _ Haud). right. eauto.
    + now apply (refused_at_iss w _req claims iss).
  - destruct (String.eqb_spec iss (issuer w)) as [->|Hi];
      [| now apply (refused_at_iss w _req claims iss)].
    destruct (String.eqb_spec aud (client_id w)) as [->|Ha];
      [| apply (passes_iss w _req claims s Hiss _ Haud); right; eauto].
    unfold id_token_validation.
    unfold bind at 1. rewrite (at_found _ _ _ Hiss). run.
    rewrite String.eqb_refl. cbn [negb].
    unfold bind at 1. rewrite (at_found _ _ _ Haud). run.
    rewrite String.eqb_refl. cbn [negb].
    rewrite (contains_found _ _ _ Hazp).
    unfold bind at 1 2. rewrite (at_found _ _ _ Hazp). run.
    apply String.eqb_neq in Hne. rewrite Hne. reflexivity.
Qed.

(** On the whole path: a callback with the expected state and a code,
    whose exchange returns a token with refused claims, is answered
    [400] and no login is filed. *)
Lemma callback_refuses_id_token (w : world) (_req : request_type) (u : url) (s : state)
    (code form : string) (doc : json) (tok : string) (jwt : decoded_jwt) :
  method _req = get ->
  parse_url w (target _req) = Ok u ->
  query u !! "state" = Some "placeholder" ->
  query u !! "code" = Some code ->
  exchange_returns w (exchange_arguments w code) form doc ->
  Json.find "error" doc = None ->
  Json.find "id_token" doc = Some (JStr tok) ->
  jwt_decode w tok = Ok jwt ->
  claims_refused w (payload_json jwt) ->
  exists evs,
    authentication w _req s = (Returns (fail bad_request), with_events evs s).
Proof.
  intros Hget Hparse Hst Hcode Hex Herr Hid Hjwt Href.
  rewrite (enter_callback _ _ _ _ Hget Hparse).
  destruct (callback_reaches_validation w _req u s code form doc tok jwt
              Hst Hcode Hex Herr Hid Hjwt) as (raw & ->).
  rewrite (validation_refuses _ _ _ _ Href). now eexists [_; _; _].
Qed.

(** C2, where the code departs from it.  An ID token of the configured
    issuer for the configured client whose [exp] (10) lies before the
    clock reading taken for the comparison (1000) is not refused: the
    callback answers [200] and files a login for alice. *)
Theorem expired_id_token_is_accepted :
  let w := Example.alice_world 10 in
  let _req := Example.callback_request in
  steady_clock w (clock_reads Example.start) = 1000 /\
  Json.find "exp" (Example.alice_claims 10) = Some (JNum 10) /\
  not_before 1000 (JNum 10) = true /\
  exists s',
    authentication w _req Example.start = (Returns (token_response w _req "token-0"), s') /\
    status (token_response w _req "token-0") = ok /\
    stash s' = [("token-0", mkInfo openid_connect "alice" None 4601)].
Proof.
  cbv zeta. repeat (split; [reflexivity |]).
  eexists. split; [vm_compute; reflexivity |]. split; reflexivity.
Qed.

(** *** POST: which branch runs *)

Lemma decode_run (w : world) (data : string) (s : state) :
  decode_username_and_password w data s =
  (Returns (credentials w data), with_events (decode_log w data) s).
Proof.
  pose proof (decode_username_and_password_view w data s) as Hv.
  unfold credentials. unfold decode_username_and_password in *.
  unfold decode_log, decoder_error_code, decoded_view in *.
  destruct (base64_decode w (Str.trim data) (zeroes max_creds_size) max_creds_size)
    as [[ec creds] size].
  unfold bind, log, emit in *. cbn [fst snd] in *.
  destruct (Str.find ":" (Str.prefix size creds)); cbn [ret fst] in *;
    injection Hv as <-; reflexivity.
Qed.

Lemma find_first needle hay pos :
  Str.find needle hay = Some pos -> first_occurrence needle hay pos.
Proof.
  unfold Str.find. intros H. split.
  - exact (String.index_correct1 _ _ _ _ H).
  - intros q Hq. apply (String.index_correct2 _ _ _ _ H); lia.
Qed.

Lemma find_nowhere needle hay :
  needle <> "" -> Str.find needle hay = None -> occurs_nowhere needle hay.
Proof.
  unfold Str.find. intros Hne H q.
  apply (String.index_correct3 _ q _ _ H Hne). lia.
Qed.

Lemma enter_basic w _req value pos s :
  method _req = post ->
  authorization _req = Some value ->
  Str.find "Basic " value = Some pos ->
  authentication w _req s =
  basic_bridge w _req
    (credentials w (Str.substr (pos + 6) value)).1
    (credentials w (Str.substr (pos + 6) value)).2
    (with_events (decode_log w (Str.substr (pos + 6) value))
       (with_events (header_log value) s)).
Proof.
  intros Hm Ha Hf. unfold authentication, post_credentials. rewrite Hm, Ha.
  unfold bind at 1. run. rewrite Hf.
  unfold bind at 1, basic_auth_scheme_prefix_size. rewrite decode_run.
  now destruct (credentials w (Str.substr (pos + 6) value)).
Qed.

Lemma enter_password_grant w _req value pos s :
  method _req = post ->
  authorization _req = Some value ->
  Str.find "Basic " value = None ->
  Str.find "iRODS " value = Some pos ->
  authentication w _req s =
  password_grant w _req
    (credentials w (Str.substr (pos + 6) value)).1
    (credentials w (Str.substr (pos + 6) value)).2
    (with_events (decode_log w (Str.substr (pos + 6) value))
       (with_events (header_log value) s)).
Proof.
  intros Hm Ha Hb Hf. unfold authentication, post_credentials. rewrite Hm, Ha.
  unfold bind at 1. run. rewrite Hb, Hf.
  unfold bind at 1, basic_auth_scheme_prefix_size. rewrite decode_run.
  now destruct (credentials w (Str.substr (pos + 6) value)).
Qed.

(** C10.  The scheme of a POST request is looked for anywhere in the
    header value.  If [Basic ] occurs, the Basic branch runs whatever else
    the value holds; the password grant runs only when [Basic ] occurs
    nowhere and [iRODS ] occurs; in both the credentials are decoded from
    what starts six characters after the first occurrence; otherwise the
    request is answered [400]. *)
Theorem scheme_is_searched_for (w : world) (_req : request_type) (value : string)
    (s : state) :
  method _req = post ->
  authorization _req = Some value ->
  match Str.find "Basic " value with
  | Some pos =>
      first_occurrence "Basic " value pos /\
      authentication w _req s =
      basic_bridge w _req
        (credentials w (Str.substr (pos + 6) value)).1
        (credentials w (Str.substr (pos + 6) value)).2
        (with_events (decode_log w (Str.substr (pos + 6) value))
           (with_events (header_log value) s))
  | None =>
      occurs_nowhere "Basic " value /\
      match Str.find "iRODS " value with
      | Some pos =>
          first_occurrence "iRODS " value pos /\
          authentication w _req s =
          password_grant w _req
            (credentials w (Str.substr (pos + 6) value)).1
            (credentials w (Str.substr (pos + 6) value)).2
            (with_events (decode_log w (Str.substr (pos + 6) value))
               (with_events (header_log value) s))
      | None =>
          occurs_nowhere "iRODS " value /\
          authentication w _req s =
          (Returns (fail bad_request), with_events (header_log value) s)
      end
  end.
Proof.
  intros Hm Ha.
  destruct (Str.find "Basic " value) as [pos|] eqn:Hb.
  { split; [now apply find_first | now apply enter_basic]. }
  split; [now apply find_nowhere |].
  destruct (Str.find "iRODS " value) as [pos|] eqn:Hi.
  { split; [now apply find_first | now apply enter_password_grant]. }
  split; [now apply find_nowhere |].
  unfold authentication, post_credentials. rewrite Hm, Ha.
  unfold bind at 1. run. now rewrite Hb, Hi.
Qed.

(** A header value that names both schemes, [iRODS ] first: the Basic
    branch runs, on what follows [Basic ]. *)
Lemma scheme_is_searched_for_witness :
  let w := Example.backend_world (Ok (0, Some 1)) in
  let value := "iRODS Basic YWxpY2U6c2VjcmV0" in
  let _req := Example.post_request value in
  (method _req = post /\ authorization _req = Some value /\
   Str.find "iRODS " value = Some 0%nat /\ Str.find "Basic " value = Some 6%nat /\
   credentials w (Str.substr (6 + 6) value) = ("alice", "secret")) /\
  first_occurrence "Basic " value 6 /\
  authentication w _req Example.start =
  basic_bridge w _req
    (credentials w (Str.substr (6 + 6) value)).1
    (credentials w (Str.substr (6 + 6) value)).2
    (with_events (decode_log w (Str.substr (6 + 6) value))
       (with_events (header_log value) Example.start)).
Proof.
  cbv zeta. split; [repeat split |].
  apply (scheme_is_searched_for (Example.backend_world (Ok (0, Some 1)))
           (Example.post_request "iRODS Basic YWxpY2U6c2VjcmV0")
           "iRODS Basic YWxpY2U6c2VjcmV0" Example.start);
    reflexivity.
Defined.

(** *** POST: the password grant *)

Lemma empty_iff s : Str.empty s = true <-> s = "".
Proof. unfold Str.empty. destruct (decide (s = "")); split; congruence. Qed.

Lemma no_credentials u p : (u = "" \/ p = "") <-> Str.empty u || Str.empty p = true.
Proof. rewrite orb_true_iff, !empty_iff. tauto. Qed.

Lemma some_credentials u p : u <> "" -> p <> "" -> Str.empty u || Str.empty p = false.
Proof.
  intros Hu Hp. apply not_true_is_false. rewrite <- no_credentials. tauto.
Qed.

Lemma password_grant_exchange w _req u p s form doc :
  u <> "" -> p <> "" ->
  exchange_returns w (password_arguments w u p) form doc ->
  exists raw,
    password_grant w _req u p s =
    (let* is_error := is_error_response doc in
     if is_error then send (fail bad_request) else
     let* id_token := lift (Json.at_ "id_token" doc) in
     let* jwt_token := lift (Json.get_string id_token) in
     let* decoded := lift (jwt_decode w jwt_token) in
     issue_for_irods_username w _req (payload_json decoded))
      (with_events [EvLog log_debug "Got the following resp back: {}" [AStr raw];
                    EvHttpPost form] s).
Proof.
  intros Hu Hp (Hform & Hconn & Hreply).
  destruct (hit_token_endpoint_returns w form doc s Hconn Hreply) as (raw & Hhit).
  exists raw. unfold password_grant. rewrite (some_credentials _ _ Hu Hp).
  cbv zeta. fold (password_arguments w u p).
  unfold bind at 1. rewrite Hform. run.
  unfold bind at 1. rewrite Hhit. reflexivity.
Qed.

(** C5.  A POST request whose header value holds [iRODS ] and not
    [Basic ]: the credentials are those [decode_username_and_password]
    returns for what follows the scheme, as in the Basic branch; an empty
    username or password is answered [401]; otherwise the form encoding
    of client_id, grant_type=password, scope=openid, username and
    password is posted to the token endpoint; an error response is
    answered [400]; otherwise a token whose payload carries an
    [irods_username] is answered [200] and filed under the scheme
    [openid_connect], whatever its other claims are. *)
Theorem password_grant_flow (w : world) (_req : request_type) (value : string)
    (pos : nat) (s : state) :
  method _req = post ->
  authorization _req = Some value ->
  Str.find "Basic " value = None ->
  Str.find "iRODS " value = Some pos ->
  let data := Str.substr (pos + 6) value in
  let u := (credentials w data).1 in
  let p := (credentials w data).2 in
  let s1 := with_events (decode_log w data) (with_events (header_log value) s) in
  (u = "" \/ p = "" ->
   authentication w _req s = (Returns (fail unauthorized), s1)) /\
  (u <> "" -> p <> "" ->
   forall form doc,
     exchange_returns w (password_arguments w u p) form doc ->
     exists raw,
       let s2 :=
         with_events [EvLog log_debug "Got the following resp back: {}" [AStr raw];
                      EvHttpPost form] s1 in
       (Json.contains "error" doc = true ->
        exists evs,
          authentication w _req s = (Returns (fail bad_request), with_events evs s2)) /\
       (Json.find "error" doc = None ->
        forall tok jwt name,
          Json.find "id_token" doc = Some (JStr tok) ->
          jwt_decode w tok = Ok jwt ->
          Json.find "irods_username" (payload_json jwt) = Some (JStr name) ->
          authentication w _req s =
          (Returns (token_response w _req (stash_key w (stash s))),
           issued w openid_connect name None s2) /\
          status (token_response w _req (stash_key w (stash s))) = ok)).
Proof.
  intros Hm Ha Hb Hi. cbv zeta.
  rewrite (enter_password_grant w _req value pos s Hm Ha Hb Hi).
  set (data := Str.substr (pos + 6) value).
  set (s1 := with_events (decode_log w data) (with_events (header_log value) s)).
  split.
  - intros Hempty. apply no_credentials in Hempty.
    unfold password_grant. now rewrite Hempty.
  - intros Hu Hp form doc Hex.
    destruct (password_grant_exchange w _req _ _ s1 form doc Hu Hp Hex) as (raw & ->).
    exists raw. cbv zeta. split.
    + intros Herr.
      destruct (is_error_response_true doc
                  (with_events [EvLog log_debug "Got the following resp back: {}" [AStr raw];
                                EvHttpPost form] s1) Herr) as (fmt & args & Hie).
      unfold bind at 1. rewrite Hie. now eexists [_].
    + intros Herr tok jwt name Hid Hjwt Hname.
      unfold bind at 1. rewrite (is_error_response_false _ _ Herr).
      unfold bind at 1. rewrite (at_found _ _ _ Hid). run.
      unfold bind at 1. rewrite Hjwt. run.
      rewrite (issue_for_irods_username_found w _req _ name _ Hname).
      split; reflexivity.
Qed.

(** [POST] with [Authorization: iRODS base64("alice:secret")] against an
    identity provider whose token only has the [irods_username] right. *)
Lemma password_grant_flow_witness :
  let w := Example.deployment Example.id_token_reply Example.foreign_claims (Ok (0, None)) in
  let value := "iRODS YWxpY2U6c2VjcmV0" in
  let _req := Example.post_request value in
  (method _req = post /\ authorization _req = Some value /\
   Str.find "Basic " value = None /\ Str.find "iRODS " value = Some 0%nat /\
   credentials w (Str.substr (0 + 6) value) = ("alice", "secret") /\
   exchange_returns w (password_arguments w "alice" "secret") Example.password_form
     Example.id_token_reply) /\
  exists s',
    authentication w _req Example.start =
      (Returns (token_response w _req (stash_key w (stash Example.start))), s') /\
    status (token_response w _req (stash_key w (stash Example.start))) = ok /\
    stash s' = [("token-0", mkInfo openid_connect "alice" None 4600)].
Proof.
  cbv zeta.
  assert (exchange_returns
            (Example.deployment Example.id_token_reply Example.foreign_claims (Ok (0, None)))
            (password_arguments
               (Example.deployment Example.id_token_reply Example.foreign_claims (Ok (0, None)))
               "alice" "secret")
            Example.password_form Example.id_token_reply) as Hex.
  { split; [reflexivity |]. split; [reflexivity |].
    exists "(response body)". split; reflexivity. }
  split; [do 5 (split; [reflexivity |]); exact Hex |].
  destruct (password_grant_flow
              (Example.deployment Example.id_token_reply Example.foreign_claims (Ok (0, None)))
              (Example.post_request "iRODS YWxpY2U6c2VjcmV0")
              "iRODS YWxpY2U6c2VjcmV0" 0 Example.start
              eq_refl eq_refl eq_refl eq_refl) as [_ Hflow].
  destruct (Hflow ltac:(discriminate) ltac:(discriminate)
              Example.password_form Example.id_token_reply Hex) as (raw & _ & Hok).
  destruct (Hok eq_refl "eyJ.eyJ.sig"
              (mkJwt (JObj [("alg", JStr "RS256")]) Example.foreign_claims) "alice"
              eq_refl eq_refl eq_refl) as [Hrun Hstatus].
  eexists. split; [exact Hrun |]. split; [exact Hstatus | reflexivity].
Defined.

(** *** POST: the Basic branch *)

Ltac settle_basic :=
  first
    [ eexists _, [_] , _; split; [reflexivity |]; split; [reflexivity |]
    | eexists _, [_; _] , _; split; [reflexivity |]; split; [reflexivity |]
    | eexists _, [_; _; _] , _; split; [reflexivity |]; split; [reflexivity |]
    | eexists _, [_; _; _; _] , _; split; [reflexivity |]; split; [reflexivity |] ].

Lemma basic_bridge_outcome (w : world) (_req : request_type) (u p : string) (s : state) :
  u <> "" -> p <> "" ->
  exists r evs s',
    basic_bridge w _req u p s = (Returns r, s') /\
    trace s' = evs ++ trace s /\
    (status r = ok <-> backend_accepts w u p) /\
    (status r = ok \/ r = fail unauthorized /\ stash s' = stash s) /\
    released evs /\
    (forall e, backend_throws w u p e ->
               r = fail unauthorized /\ In (caught_log u e) evs).
Proof.
  intros Hu Hp. unfold basic_bridge. rewrite (some_credentials _ _ Hu Hp).
  unfold backend_accepts, backend_throws, caught_log, released.
  unfold try_catch, check_auth_credentials, with_free_memory, bind, lift.
  fold (credentials_input w u).
  destruct (obfuscate_password w p (rodsadmin_password w)) as [obf|e0] eqn:Hobf.
  2:{ settle_basic. split; [| split; [| split]].
      - split; [discriminate | intros (? & ? & ? & _); discriminate].
      - right. split; reflexivity.
      - reflexivity.
      - intros e [[= ->] | (? & ? & _)]; [| discriminate].
        split; [reflexivity | now left]. }
  fold (credentials_input w u obf).
  destruct (get_connection w (rodsadmin_username w)) as [[]|e0] eqn:Hconn.
  2:{ settle_basic. split; [| split; [| split]].
      - split; [discriminate | intros (? & ? & _ & ? & _); discriminate].
      - right. split; reflexivity.
      - reflexivity.
      - intros e [| (? & _ & [[= ->] | [? _]])]; try discriminate.
        split; [reflexivity | now left]. }
  destruct (rc_check_auth_credentials w (credentials_input w u obf))
    as [[ec correct]|e0] eqn:Hrpc.
  2:{ settle_basic. split; [| split; [| split]].
      - split; [discriminate |].
        intros (o & ? & [= <-] & _ & ? & _). congruence.
      - right. split; reflexivity.
      - reflexivity.
      - intros e [| (o & [= <-] & [| [_ ?]])]; try discriminate.
        assert (e = e0) as -> by congruence.
        split; [reflexivity | now left]. }
  assert (forall P : Prop,
            (exists o ec', Ok obf = Ok o /\ Ok tt = Ok tt /\
               rc_check_auth_credentials w (credentials_input w u o) = Ok (ec', Some 1) /\
               0 <= ec') ->
            (ec < 0 \/ correct <> Some 1) -> P) as Hno.
  { intros P (o & ec' & [= <-] & _ & Hr & Hge) Hbad.
    rewrite Hrpc in Hr. injection Hr as <- ->. exfalso. destruct Hbad; [lia | congruence]. }
  assert (forall e : exn,
            Ok obf = Throw e \/
            (exists o, Ok obf = Ok o /\
               (Ok tt = Throw e \/
                Ok tt = Ok tt /\
                rc_check_auth_credentials w (credentials_input w u o) = Throw e)) ->
            False) as Hquiet.
  { intros e [| (o & [= <-] & [| [_ ?]])]; congruence. }
  destruct correct as [v|]; cbv beta iota zeta delta [emit ret log free snd fst];
    destruct (ec <? 0) eqn:Hec.
  - settle_basic. split; [| split; [| split]].
    + split; [discriminate | intros H; apply (Hno _ H); left; lia].
    + right. split; reflexivity.
    + reflexivity.
    + intros e H. destruct (Hquiet e H).
  - destruct (decide (v = 1)) as [->|Hv].
    + settle_basic. split; [| split; [| split]].
      * split; [intros _ | reflexivity].
        exists obf, ec. repeat split; try assumption. lia.
      * now left.
      * reflexivity.
      * intros e H. destruct (Hquiet e H).
    + assert (bool_decide (Some v = Some 1) = false) as Hbd
        by (apply bool_decide_eq_false; congruence).
      rewrite Hbd.
      settle_basic. split; [| split; [| split]].
      * split; [discriminate | intros H; apply (Hno _ H); right; congruence].
      * right. split; reflexivity.
      * reflexivity.
      * intros e H. destruct (Hquiet e H).
  - settle_basic. split; [| split; [| split]].
    + split; [discriminate | intros H; apply (Hno _ H); left; lia].
    + right. split; reflexivity.
    + reflexivity.
    + intros e H. destruct (Hquiet e H).
  - settle_basic. split; [| split; [| split]].
    + split; [discriminate | intros H; apply (Hno _ H); right; discriminate].
    + right. split; reflexivity.
    + reflexivity.
    + intros e H. destruct (Hquiet e H).
Qed.

(** C4.  In the Basic branch, with a username and a password decoded,
    the handler always answers: [200] exactly when the credentials check
    is reached and returns an error code that is not negative with the
    flag it leaves behind equal to 1, and [401] with the stash untouched
    otherwise.  An exception thrown while the password is obfuscated,
    the connection obtained or the check made is caught and logged, and
    the answer is [401].  On every path the block behind the
    out-parameter is released once if it was allocated. *)
Theorem basic_bridge_fails_closed (w : world) (_req : request_type) (value : string)
    (pos : nat) (s : state) :
  method _req = post ->
  authorization _req = Some value ->
  Str.find "Basic " value = Some pos ->
  let data := Str.substr (pos + 6) value in
  let u := (credentials w data).1 in
  let p := (credentials w data).2 in
  let s1 := with_events (decode_log w data) (with_events (header_log value) s) in
  u <> "" -> p <> "" ->
  exists r evs s',
    authentication w _req s = (Returns r, s') /\
    trace s' = evs ++ trace s1 /\
    (status r = ok <-> backend_accepts w u p) /\
    (status r = ok \/ r = fail unauthorized /\ stash s' = stash s) /\
    released evs /\
    (forall e, backend_throws w u p e ->
               r = fail unauthorized /\ In (caught_log u e) evs).
Proof.
  intros Hm Ha Hb. cbv zeta. intros Hu Hp.
  rewrite (enter_basic w _req value pos s Hm Ha Hb).
  exact (basic_bridge_outcome w _req _ _ _ Hu Hp).
Qed.

(** Scenario D: [POST] with [Authorization: Basic
    base64("baduser:badpass")] and a backend that returns the flag 0. *)
Lemma basic_bridge_fails_closed_witness :
  let w := Example.backend_world (Ok (0, Some 0)) in
  let value := "Basic YmFkdXNlcjpiYWRwYXNz" in
  let _req := Example.post_request value in
  let s1 := with_events (decode_log w (Str.substr (0 + 6) value))
              (with_events (header_log value) Example.start) in
  (method _req = post /\ authorization _req = Some value /\
   Str.find "Basic " value = Some 0%nat /\
   credentials w (Str.substr (0 + 6) value) = ("baduser", "badpass")) /\
  (authentication w _req Example.start).1 = Returns (fail unauthorized) /\
  exists r evs s',
    authentication w _req Example.start = (Returns r, s') /\
    trace s' = evs ++ trace s1 /\
    (status r = ok <->
     backend_accepts w (credentials w (Str.substr (0 + 6) value)).1
       (credentials w (Str.substr (0 + 6) value)).2) /\
    (status r = ok \/ r = fail unauthorized /\ stash s' = stash Example.start) /\
    released evs /\
    (forall e,
       backend_throws w (credentials w (Str.substr (0 + 6) value)).1
         (credentials w (Str.substr (0 + 6) value)).2 e ->
       r = fail unauthorized /\
       In (caught_log (credentials w (Str.substr (0 + 6) value)).1 e) evs).
Proof.
  cbv zeta. split; [repeat split |]. split; [reflexivity |].
  apply (basic_bridge_fails_closed (Example.backend_world (Ok (0, Some 0)))
           (Example.post_request "Basic YmFkdXNlcjpiYWRwYXNz")
           "Basic YmFkdXNlcjpiYWRwYXNz" 0 Example.start);
    [reflexivity | reflexivity | reflexivity | discriminate | discriminate].
Defined.

End Dispatch.

(** * Further properties of the handler *)

(** ** Relations every step of a run keeps *)
Section Frame.

Variable R : state -> state -> Prop.
Hypothesis R_refl : forall s, R s s.
Hypothesis R_trans : forall a b c, R a b -> R b c -> R a c.

Lemma respects_ret {A} (a : A) : respects R (ret a).
Proof. intros s. apply R_refl. Qed.

Lemma respects_lift {A} (r : result A) : respects R (lift r).
Proof. intros s. destruct r; apply R_refl. Qed.

Lemma respects_defined {A} (o : option A) : respects R (defined o).
Proof. intros s. destruct o; apply R_refl. Qed.

Lemma respects_send r : respects R (send r).
Proof. intros s. apply R_refl. Qed.

Lemma respects_bind {A B} (m : M A) (k : A -> M B) :
  respects R m -> (forall a, respects R (k a)) -> respects R (bind m k).
Proof.
  intros Hm Hk s. unfold bind. specialize (Hm s).
  destruct (m s) as [[a|e|] s1]; cbn [snd] in *; [| assumption | assumption].
  apply (R_trans _ s1); [assumption | apply Hk].
Qed.

Lemma respects_try_catch {A} (body : M A) catches (handler : exn -> M A) :
  respects R body -> (forall e, respects R (handler e)) ->
  respects R (try_catch body catches handler).
Proof.
  intros Hb Hh s. unfold try_catch. specialize (Hb s).
  destruct (body s) as [[a|e|] s1]; cbn [snd] in *; try assumption.
  destruct (catches e); [| assumption].
  apply (R_trans _ s1); [assumption | apply Hh].
Qed.

End Frame.

Ltac frame_with Hrefl Htrans prim :=
  repeat first
    [ prim
    | apply (respects_ret _ Hrefl)
    | apply (respects_lift _ Hrefl)
    | apply (respects_defined _ Hrefl)
    | apply (respects_send _ Hrefl)
    | apply (respects_bind _ Htrans); [| intros ?]
    | apply (respects_try_catch _ Htrans); [| intros ?]
    | match goal with
      | |- respects _ (if ?b then _ else _) => destruct b
      | |- respects _ (match ?x with _ => _ end) => destruct x
      | |- respects _ (let '(_, _) := ?x in _) => destruct x
      end ].

(** ** The stash: at most one login per request *)
Section Stash.

Lemma same_stash_refl s : same_stash s s.
Proof. reflexivity. Qed.

Lemma same_stash_trans a b c : same_stash a b -> same_stash b c -> same_stash a c.
Proof. unfold same_stash. congruence. Qed.

Lemma quiet_emit e : respects same_stash (emit e).
Proof. intros s. reflexivity. Qed.

Lemma quiet_log lvl fmt args : respects same_stash (log lvl fmt args).
Proof. intros s. reflexivity. Qed.

Lemma quiet_now w : respects same_stash (now w).
Proof. intros s. reflexivity. Qed.

Lemma quiet_free correct : respects same_stash (free correct).
Proof. intros s. now destruct correct. Qed.

Ltac quiet :=
  frame_with same_stash_refl same_stash_trans
    ltac:(first [apply quiet_emit | apply quiet_log | apply quiet_now | apply quiet_free]).

Lemma quiet_hit_token_endpoint w form : respects same_stash (hit_token_endpoint w form).
Proof. unfold hit_token_endpoint. quiet. Qed.

Lemma quiet_is_error_response doc : respects same_stash (is_error_response doc).
Proof. unfold is_error_response. quiet. Qed.

Lemma quiet_decode_username_and_password w data :
  respects same_stash (decode_username_and_password w data).
Proof. intros s. rewrite decode_run. reflexivity. Qed.

Lemma quiet_with_free_memory {A B} (acquire : M (A * option Z))
    (use : A -> option Z -> M B) :
  respects same_stash acquire ->
  (forall a correct, respects same_stash (use a correct)) ->
  respects same_stash (with_free_memory acquire use).
Proof.
  intros Ha Hu s. unfold with_free_memory. specialize (Ha s).
  destruct (acquire s) as [[[a correct]|e|] s1]; cbn [snd] in *; try assumption.
  specialize (Hu a correct s1). destruct (use a correct s1) as [r s2].
  cbn [snd] in *. pose proof (quiet_free correct s2) as Hf.
  unfold same_stash in *. congruence.
Qed.

Lemma quiet_check_auth_credentials w u p :
  respects same_stash (check_auth_credentials w u p).
Proof.
  unfold check_auth_credentials.
  apply (respects_bind _ same_stash_trans); [quiet | intros obf].
  apply quiet_with_free_memory; [quiet | intros ec correct; quiet].
Qed.

Lemma files_bind {A} w _req (m : M A) (k : A -> M response_type) :
  respects same_stash m -> (forall a, files w _req (k a)) -> files w _req (bind m k).
Proof.
  intros Hm Hk s. unfold bind. specialize (Hm s).
  destruct (m s) as [[a|e|] s1]; cbn [snd] in Hm; unfold same_stash in Hm.
  - specialize (Hk a s1). unfold files_at_most_one_login in *.
    rewrite Hm in Hk. exact Hk.
  - exact Hm.
  - exact Hm.
Qed.

Lemma files_fail w _req st : st <> ok -> files w _req (send (fail st)).
Proof. intros Hst s. left. split; [exact Hst | reflexivity]. Qed.

Lemma files_issue w _req scheme name pass :
  (scheme = basic <-> pass <> None) ->
  files w _req
    (let* bearer_token := issue w scheme name pass in
     send (token_response w _req bearer_token)).
Proof.
  intros Hpass s. right. split; [reflexivity |].
  eexists. split; [| reflexivity].
  split; [eexists; reflexivity | exact Hpass].
Qed.

Ltac files_fail := apply files_fail; discriminate.

Lemma files_issue_for_irods_username w _req claims :
  files w _req (issue_for_irods_username w _req claims).
Proof.
  unfold issue_for_irods_username.
  destruct (negb (Json.contains "irods_username" claims)).
  - apply files_bind; [quiet | intros user].
    apply files_bind; [quiet | intros _]. files_fail.
  - apply files_bind; [quiet | intros v].
    apply files_bind; [quiet | intros name].
    apply files_issue. split; [discriminate | congruence].
Qed.

Lemma files_id_token_validation w _req claims :
  files w _req (id_token_validation w _req claims).
Proof.
  unfold id_token_validation.
  apply files_bind; [quiet | intros iss_claim].
  apply files_bind; [quiet | intros iss].
  destruct (negb _); [apply files_bind; [quiet | intros _]; files_fail |].
  apply files_bind; [quiet | intros aud].
  apply files_bind; [quiet | intros [|]];
    [apply files_bind; [quiet | intros _]; files_fail |].
  apply files_bind; [quiet | intros [|]];
    [apply files_bind; [quiet | intros _]; files_fail |].
  apply files_bind; [quiet | intros t].
  apply files_bind; [quiet | intros exp].
  apply files_bind; [quiet | intros _].
  apply files_issue_for_irods_username.
Qed.

Lemma files_callback w _req u : files w _req (callback w _req u).
Proof.
  unfold callback.
  destruct (query u !! "state") as [st|];
    [| apply files_bind; [quiet | intros _]; files_fail].
  destruct (negb (is_state_valid st));
    [apply files_bind; [quiet | intros _]; files_fail |].
  destruct (query u !! "code") as [code|].
  - cbv zeta.
    apply files_bind; [quiet | intros form].
    apply files_bind; [apply quiet_hit_token_endpoint | intros doc].
    apply files_bind; [apply quiet_is_error_response | intros [|]]; [files_fail |].
    apply files_bind; [quiet | intros id_token].
    apply files_bind; [quiet | intros jwt_token].
    apply files_bind; [quiet | intros decoded].
    apply files_id_token_validation.
  - destruct (query u !! "error") as [err|];
      [| apply files_bind; [quiet | intros _]; files_fail].
    destruct (query u !! "error_description"), (query u !! "error_uri");
      (apply files_bind; [quiet | intros _; files_fail]).
Qed.

Lemma files_initiate w _req : files w _req (initiate w _req).
Proof.
  unfold initiate. cbv zeta.
  apply files_bind; [quiet | intros form].
  apply files_bind; [quiet | intros _].
  intros s. left. split; [discriminate | reflexivity].
Qed.

Lemma files_basic_bridge w _req u p : files w _req (basic_bridge w _req u p).
Proof.
  unfold basic_bridge.
  destruct (Str.empty u || Str.empty p); [files_fail |].
  apply files_bind.
  - apply (respects_try_catch _ same_stash_trans);
      [apply quiet_check_auth_credentials | intros e; quiet].
  - intros [|]; cbn [negb]; [| files_fail].
    apply files_issue. split; [discriminate | reflexivity].
Qed.

Lemma files_password_grant w _req u p : files w _req (password_grant w _req u p).
Proof.
  unfold password_grant.
  destruct (Str.empty u || Str.empty p); [files_fail |].
  cbv zeta.
  apply files_bind; [quiet | intros form].
  apply files_bind; [apply quiet_hit_token_endpoint | intros doc].
  apply files_bind; [apply quiet_is_error_response | intros [|]]; [files_fail |].
  apply files_bind; [quiet | intros id_token].
  apply files_bind; [quiet | intros jwt_token].
  apply files_bind; [quiet | intros decoded].
  apply files_issue_for_irods_username.
Qed.

Lemma files_post_credentials w _req : files w _req (post_credentials w _req).
Proof.
  unfold post_credentials.
  destruct (authorization _req) as [value|]; [| files_fail].
  apply files_bind; [quiet | intros _].
  destruct (Str.find "Basic " value) as [pos|].
  - apply files_bind; [apply quiet_decode_username_and_password | intros [u p]].
    apply files_basic_bridge.
  - destruct (Str.find "iRODS " value) as [pos|]; [| files_fail].
    apply files_bind; [apply quiet_decode_username_and_password | intros [u p]].
    apply files_password_grant.
Qed.

(** X1.  Whatever the request and whatever the collaborators do, a run of
    the handler either answers with a status other than [200] and leaves
    the stash as it was, or answers [200] with the response built around
    the key of exactly one new entry, added behind the entries that were
    there, which expires the configured timeout after a clock reading and
    keeps a password exactly when its scheme is Basic; a run that ends in
    an exception leaves the stash as it was. *)
Theorem authentication_files_at_most_one_login (w : world) (_req : request_type)
    (s : state) :
  files_at_most_one_login w _req s (authentication w _req s).
Proof.
  revert s. change (files w _req (authentication w _req)).
  unfold authentication. destruct (method _req).
  - apply files_bind.
    + apply (respects_try_catch _ same_stash_trans); [quiet | intros e; quiet].
    + intros [u|]; [apply files_callback | apply files_initiate].
  - apply files_post_credentials.
  - files_fail.
Qed.

End Stash.

(** ** The heap: nothing is left allocated *)
Section Heap.

Lemma heap_after_app a b n :
  heap_after (a ++ b) n =
  match heap_after a n with
  | Some m => heap_after b m
  | None => None
  end.
Proof.
  revert n. induction a as [|e a IH]; intros n; [reflexivity |].
  destruct e; cbn [app heap_after]; try apply IH.
  destruct n; [reflexivity | apply IH].
Qed.

Lemma heap_settled_refl s : heap_settled s s.
Proof. exists []. split; reflexivity. Qed.

Lemma heap_settled_trans a b c : heap_settled a b -> heap_settled b c -> heap_settled a c.
Proof.
  intros (evs1 & H1 & R1) (evs2 & H2 & R2). exists (evs2 ++ evs1). split.
  - rewrite H2, H1. apply app_assoc.
  - unfold released in *. rewrite rev_app_distr, heap_after_app, R1. exact R2.
Qed.

Lemma settled_log lvl fmt args : respects heap_settled (log lvl fmt args).
Proof. intros s. exists [EvLog lvl fmt args]. split; reflexivity. Qed.

Lemma settled_post form : respects heap_settled (emit (EvHttpPost form)).
Proof. intros s. exists [EvHttpPost form]. split; reflexivity. Qed.

Lemma settled_now w : respects heap_settled (now w).
Proof. intros s. exists []. split; reflexivity. Qed.

Lemma settled_insert w info : respects heap_settled (process_stash_insert w info).
Proof. intros s. exists []. split; reflexivity. Qed.

Lemma settled_decode_username_and_password w data :
  respects heap_settled (decode_username_and_password w data).
Proof.
  intros s. rewrite decode_run. exists (decode_log w data). split; reflexivity.
Qed.

Ltac settle_heap :=
  first [ exists []; split; reflexivity
        | eexists [_]; split; reflexivity
        | eexists [_; _]; split; reflexivity
        | eexists [_; _; _]; split; reflexivity
        | eexists [_; _; _; _]; split; reflexivity ].

(** The scope of the out-parameter: whatever the collaborators do, the
    block the check allocates is released when the scope is left. *)
Lemma settled_check_auth_credentials w u p :
  respects heap_settled (check_auth_credentials w u p).
Proof.
  intros s. unfold check_auth_credentials, with_free_memory, bind, lift.
  destruct (obfuscate_password w p (rodsadmin_password w)) as [obf|e0];
    [| settle_heap].
  destruct (get_connection w (rodsadmin_username w)) as [[]|e0]; [| settle_heap].
  destruct (rc_check_auth_credentials w _) as [[ec correct]|e0]; [| settle_heap].
  destruct correct as [v|]; cbv beta iota zeta delta [emit ret log free snd fst];
    destruct (ec <? 0); settle_heap.
Qed.

Ltac settled :=
  frame_with heap_settled_refl heap_settled_trans
    ltac:(first [ apply settled_log | apply settled_post | apply settled_now
                | apply settled_insert | apply settled_decode_username_and_password
                | apply settled_check_auth_credentials ]).

Lemma settled_authentication w _req : respects heap_settled (authentication w _req).
Proof.
  unfold authentication, callback, initiate, post_credentials, basic_bridge,
    password_grant, id_token_validation, issue_for_irods_username, issue,
    hit_token_endpoint, is_error_response.
  settled.
Qed.

(** X2.  Whatever the request and whatever the collaborators do, a run of
    the handler only adds to the trace, and every block allocated during
    the run is released during the run, once: nothing is leaked and
    nothing is released twice, on the paths that answer and on those that
    end in an exception. *)
Theorem authentication_releases_what_it_allocates (w : world) (_req : request_type)
    (s : state) :
  exists evs,
    trace (authentication w _req s).2 = evs ++ trace s /\ released evs.
Proof. exact (settled_authentication w _req s). Qed.

(** X11.  Every POST that carries an Authorization header writes the
    value of the header, the encoded credentials included, to the debug
    log, and the line stays in the trace whatever the rest of the run
    does. *)
Theorem authorization_header_is_logged (w : world) (_req : request_type)
    (value : string) (s : state) :
  method _req = post ->
  authorization _req = Some value ->
  In (EvLog log_debug "{}: Authorization value: [{}]" [AStr fn; AStr value])
     (trace (authentication w _req s).2).
Proof.
  intros Hm Ha. unfold authentication, post_credentials. rewrite Hm, Ha.
  unfold bind at 1. cbn [log emit].
  match goal with
  | |- In _ (trace (?k ?s0).2) =>
      assert (respects heap_settled k) as Hk;
      [| destruct (Hk s0) as (evs & -> & _)]
  end.
  - unfold basic_bridge, password_grant, issue_for_irods_username, issue,
      hit_token_endpoint, is_error_response.
    settled.
  - apply in_or_app. right. now left.
Qed.

Lemma authorization_header_is_logged_witness :
  let w := Example.backend_world (Ok (0, Some 0)) in
  let value := "Basic YmFkdXNlcjpiYWRwYXNz" in
  let _req := Example.post_request value in
  (method _req = post /\ authorization _req = Some value) /\
  In (EvLog log_debug "{}: Authorization value: [{}]" [AStr fn; AStr value])
     (trace (authentication w _req Example.start).2).
Proof.
  cbv zeta. split; [split; reflexivity |].
  apply (authorization_header_is_logged (Example.backend_world (Ok (0, Some 0)))
           (Example.post_request "Basic YmFkdXNlcjpiYWRwYXNz")
           "Basic YmFkdXNlcjpiYWRwYXNz" Example.start); reflexivity.
Defined.

End Heap.

(** ** Paths the specification leaves open *)
Section Paths.

(** X3.  In the Basic branch, when the backend accepts the decoded
    username and password, the answer is the [200] built around the new
    key, and the stash receives one entry under that key: the scheme
    Basic, the decoded username, the decoded password in clear, and an
    expiry the configured timeout after the run's one clock reading. *)
Theorem basic_bridge_files_login (w : world) (_req : request_type) (value : string)
    (pos : nat) (s : state) :
  method _req = post ->
  authorization _req = Some value ->
  Str.find "Basic " value = Some pos ->
  let data := Str.substr (pos + 6) value in
  let u := (credentials w data).1 in
  let p := (credentials w data).2 in
  u <> "" -> p <> "" ->
  backend_accepts w u p ->
  exists s',
    authentication w _req s =
      (Returns (token_response w _req (stash_key w (stash s))), s') /\
    stash s' =
      stash s ++
        [(stash_key w (stash s),
          mkInfo basic u (Some p)
            (steady_clock w (clock_reads s) + timeout_in_seconds w))] /\
    clock_reads s' = S (clock_reads s).
Proof.
  intros Hm Ha Hb. cbv zeta. intros Hu Hp (obf & ec & Hobf & Hconn & Hrpc & Hge).
  rewrite (enter_basic w _req value pos s Hm Ha Hb).
  unfold basic_bridge. rewrite (some_credentials _ _ Hu Hp).
  unfold try_catch, check_auth_credentials, with_free_memory, bind, lift.
  rewrite Hobf. fold (credentials_input w (credentials w (Str.substr (pos + 6) value)).1 obf).
  rewrite Hconn, Hrpc.
  cbv beta iota zeta delta [emit ret log free snd fst].
  assert ((ec <? 0) = false) as -> by lia.
  eexists. split; [reflexivity |]. split; reflexivity.
Qed.

(** [POST] with [Authorization: Basic base64("alice:secret")] and a
    backend that returns the flag 1. *)
Lemma basic_bridge_files_login_witness :
  let w := Example.backend_world (Ok (0, Some 1)) in
  let value := "Basic YWxpY2U6c2VjcmV0" in
  let _req := Example.post_request value in
  (credentials w (Str.substr (0 + 6) value) = ("alice", "secret") /\
   backend_accepts w "alice" "secret") /\
  exists s',
    authentication w _req Example.start =
      (Returns (token_response w _req (stash_key w (stash Example.start))), s') /\
    stash s' =
      stash Example.start ++
        [(stash_key w (stash Example.start),
          mkInfo basic (credentials w (Str.substr (0 + 6) value)).1
            (Some (credentials w (Str.substr (0 + 6) value)).2)
            (steady_clock w (clock_reads Example.start) + timeout_in_seconds w))] /\
    clock_reads s' = S (clock_reads Example.start).
Proof.
  cbv zeta.
  assert (backend_accepts (Example.backend_world (Ok (0, Some 1))) "alice" "secret") as Hacc.
  { exists "rodssecret", 0. repeat split. lia. }
  split; [split; [reflexivity | exact Hacc] |].
  apply (basic_bridge_files_login (Example.backend_world (Ok (0, Some 1)))
           (Example.post_request "Basic YWxpY2U6c2VjcmV0")
           "Basic YWxpY2U6c2VjcmV0" 0 Example.start);
    [reflexivity | reflexivity | reflexivity | discriminate | discriminate | exact Hacc].
Defined.

Lemma credentials_incomplete w data :
  Str.mem ":" (decoded_view w data) = false \/
  (exists rest, decoded_view w data = ":" +:+ rest) \/
  (exists u, Str.mem ":" u = false /\ decoded_view w data = u +:+ ":") ->
  (credentials w data).1 = "" \/ (credentials w data).2 = "".
Proof.
  unfold credentials. intros [Hnone | [[rest Hv] | (u & Hu & Hv)]].
  - apply cut_None in Hnone. rewrite Hnone. now left.
  - rewrite Hv. now left.
  - rewrite Hv, (cut_append ":" u "" Hu). now right.
Qed.

(** X4.  In both POST branches, credentials whose decoded bytes hold no
    colon, begin with the colon, or end with their first colon are
    answered [401], with nothing but log lines left behind: no backend
    check is made, no token endpoint is called and no login is filed. *)
Theorem post_with_incomplete_credentials (w : world) (_req : request_type)
    (value : string) (pos : nat) (s : state) :
  method _req = post ->
  authorization _req = Some value ->
  Str.find "Basic " value = Some pos \/
  (Str.find "Basic " value = None /\ Str.find "iRODS " value = Some pos) ->
  let data := Str.substr (pos + 6) value in
  Str.mem ":" (decoded_view w data) = false \/
  (exists rest, decoded_view w data = ":" +:+ rest) \/
  (exists u, Str.mem ":" u = false /\ decoded_view w data = u +:+ ":") ->
  authentication w _req s =
  (Returns (fail unauthorized),
   with_events (decode_log w data) (with_events (header_log value) s)).
Proof.
  intros Hm Ha Hscheme. cbv zeta. intros Hview.
  apply credentials_incomplete, no_credentials in Hview.
  destruct Hscheme as [Hb | [Hb Hi]].
  - rewrite (enter_basic w _req value pos s Hm Ha Hb).
    unfold basic_bridge. now rewrite Hview.
  - rewrite (enter_password_grant w _req value pos s Hm Ha Hb Hi).
    unfold password_grant. now rewrite Hview.
Qed.

(** [POST] with [Authorization: iRODS base64("alice")]: no colon. *)
Lemma post_with_incomplete_credentials_witness :
  let w := Example.backend_world (Ok (0, Some 1)) in
  let value := "iRODS YWxpY2U=" in
  let _req := Example.post_request value in
  decoded_view w (Str.substr (0 + 6) value) = "alice" /\
  authentication w _req Example.start =
  (Returns (fail unauthorized),
   with_events (decode_log w (Str.substr (0 + 6) value))
     (with_events (header_log value) Example.start)).
Proof.
  cbv zeta. split; [reflexivity |].
  apply (post_with_incomplete_credentials (Example.backend_world (Ok (0, Some 1)))
           (Example.post_request "iRODS YWxpY2U=") "iRODS YWxpY2U=" 0 Example.start);
    [reflexivity | reflexivity | right; split; reflexivity | left; reflexivity].
Defined.

Lemma at_missing key j :
  Json.find key j = None -> exists msg, Json.at_ key j = Throw (std_exception msg).
Proof.
  destruct j; cbn [Json.find Json.at_]; try (intros _; eexists; reflexivity).
  intros ->. eexists. reflexivity.
Qed.

Lemma hit_token_endpoint_throws w form e s :
  exchange_throws w form e ->
  exists s', hit_token_endpoint w form s = (Raises e, s') /\ stash s' = stash s.
Proof.
  unfold hit_token_endpoint, bind, lift.
  intros [Hc | [Hc [Hr | (raw & Hr & Hp)]]]; rewrite Hc.
  - eexists. split; reflexivity.
  - cbn [emit]. rewrite Hr. eexists. split; reflexivity.
  - cbn [emit]. rewrite Hr. cbn [log emit]. rewrite Hp. eexists. split; reflexivity.
Qed.

(** X5.  When the token endpoint cannot be reached, its reply cannot be
    read, or the reply is not JSON, the callback does not answer [400]:
    the exception leaves the handler, no response is sent by it and no
    login is filed. *)
Theorem callback_exchange_failure_escapes (w : world) (_req : request_type) (u : url)
    (s : state) (code form : string) (e : exn) :
  method _req = get ->
  parse_url w (target _req) = Ok u ->
  query u !! "state" = Some "placeholder" ->
  query u !! "code" = Some code ->
  encode_body (iteration_order w (exchange_arguments w code)) = Some form ->
  exchange_throws w form e ->
  exists s', authentication w _req s = (Raises e, s') /\ stash s' = stash s.
Proof.
  intros Hget Hparse Hst Hcode Hform Hthrow.
  rewrite (enter_callback _ _ _ _ Hget Hparse). unfold callback.
  rewrite Hst, Hcode. cbv beta iota. rewrite placeholder_valid.
  cbn [negb]. cbv zeta. fold (exchange_arguments w code).
  unfold bind at 1. rewrite Hform. run.
  destruct (hit_token_endpoint_throws w form e s Hthrow) as (s' & Hhit & Hs').
  unfold bind at 1. rewrite Hhit. exists s'. split; [reflexivity | exact Hs'].
Qed.

(** Scenario B with the identity provider out of reach. *)
Lemma callback_exchange_failure_escapes_witness :
  let w := Scenario.offline in
  let e := std_exception "connect: Connection refused" in
  exchange_throws w Example.callback_form e /\
  exists s',
    authentication w Example.callback_request Example.start = (Raises e, s') /\
    stash s' = stash Example.start.
Proof.
  cbv zeta.
  assert (exchange_throws Scenario.offline Example.callback_form
            (std_exception "connect: Connection refused")) as Hthrow
    by (left; reflexivity).
  split; [exact Hthrow |].
  apply (callback_exchange_failure_escapes Scenario.offline Example.callback_request
           Example.callback_url Example.start "abc123" Example.callback_form
           (std_exception "connect: Connection refused"));
    [reflexivity | reflexivity | reflexivity | reflexivity | reflexivity | exact Hthrow].
Defined.

(** X6.  A reply of the token endpoint that is no error response and
    holds no [id_token], or one that is not a string, is not answered
    [400] either: reading it throws, the exception leaves the handler
    and no login is filed. *)
Theorem callback_without_id_token_throws (w : world) (_req : request_type) (u : url)
    (s : state) (code form : string) (doc : json) :
  method _req = get ->
  parse_url w (target _req) = Ok u ->
  query u !! "state" = Some "placeholder" ->
  query u !! "code" = Some code ->
  exchange_returns w (exchange_arguments w code) form doc ->
  Json.find "error" doc = None ->
  Json.find "id_token" doc = None \/
  (exists v, Json.find "id_token" doc = Some v /\ forall tok, v <> JStr tok) ->
  exists msg s',
    authentication w _req s = (Raises (std_exception msg), s') /\
    stash s' = stash s.
Proof.
  intros Hget Hparse Hst Hcode (Hform & Hconn & Hreply) Herr Hid.
  destruct (hit_token_endpoint_returns w form doc s Hconn Hreply) as (raw & Hhit).
  rewrite (enter_callback _ _ _ _ Hget Hparse). unfold callback.
  rewrite Hst, Hcode. cbv beta iota. rewrite placeholder_valid.
  cbn [negb]. cbv zeta. fold (exchange_arguments w code).
  unfold bind at 1. rewrite Hform. run.
  unfold bind at 1. rewrite Hhit.
  unfold bind at 1. rewrite (is_error_response_false _ _ Herr).
  unfold bind at 1.
  destruct Hid as [Hnone | (v & Hv & Hns)].
  - destruct (at_missing _ _ Hnone) as (msg & ->). run.
    do 2 eexists. split; reflexivity.
  - rewrite (at_found _ _ _ Hv). run.
    destruct v; try (do 2 eexists; split; reflexivity).
    now destruct (Hns s0).
Qed.

(** Scenario B with an identity provider that answers [{}]. *)
Lemma callback_without_id_token_throws_witness :
  let w := Example.deployment (JObj []) JNull (Ok (0, None)) in
  exchange_returns w (exchange_arguments w "abc123") Example.callback_form (JObj []) /\
  exists msg s',
    authentication w Example.callback_request Example.start =
      (Raises (std_exception msg), s') /\
    stash s' = stash Example.start.
Proof.
  cbv zeta.
  assert (exchange_returns (Example.deployment (JObj []) JNull (Ok (0, None)))
            (exchange_arguments (Example.deployment (JObj []) JNull (Ok (0, None))) "abc123")
            Example.callback_form (JObj [])) as Hex.
  { split; [reflexivity |]. split; [reflexivity |].
    exists "(response body)". split; reflexivity. }
  split; [exact Hex |].
  apply (callback_without_id_token_throws
           (Example.deployment (JObj []) JNull (Ok (0, None)))
           Example.callback_request Example.callback_url Example.start
           "abc123" Example.callback_form (JObj []));
    [reflexivity | reflexivity | reflexivity | reflexivity | exact Hex
    | reflexivity | left; reflexivity].
Defined.

Lemma validation_throws w _req claims s :
  claims_incomplete w claims ->
  exists msg s',
    id_token_validation w _req claims s = (Raises (std_exception msg), s') /\
    stash s' = stash s.
Proof.
  intros [Hiss | Hiss Haud | Hiss Haud Hazp Hexp]; unfold id_token_validation.
  - destruct (at_missing _ _ Hiss) as (msg & Hat).
    unfold bind at 1. rewrite Hat. run. do 2 eexists. split; reflexivity.
  - unfold bind at 1. rewrite (at_found _ _ _ Hiss). run.
    rewrite String.eqb_refl. cbn [negb].
    destruct (at_missing _ _ Haud) as (msg & Hat).
    unfold bind at 1. rewrite Hat. run. do 2 eexists. split; reflexivity.
  - unfold bind at 1. rewrite (at_found _ _ _ Hiss). run.
    rewrite String.eqb_refl. cbn [negb].
    unfold bind at 1. rewrite (at_found _ _ _ Haud). run.
    rewrite String.eqb_refl. cbn [negb].
    assert ((if Json.contains "azp" claims
             then
               let* azp_claim := lift (Json.at_ "azp" claims) in
               let* azp_field := lift (Json.get_string azp_claim) in
               ret (negb (String.eqb azp_field (client_id w)))
             else ret false) s = (Returns false, s)) as Hazp'.
    { destruct Hazp as [Hazp | Hazp].
      - now rewrite (contains_missing _ _ Hazp).
      - rewrite (contains_found _ _ _ Hazp). unfold bind.
        rewrite (at_found _ _ _ Hazp). run. now rewrite String.eqb_refl. }
    unfold bind at 1. rewrite Hazp'. cbv beta iota.
    unfold bind at 1. unfold now at 1. cbv beta iota.
    destruct (at_missing _ _ Hexp) as (msg & Hat).
    unfold bind at 1. rewrite Hat. run. do 2 eexists. split; reflexivity.
Qed.

(** X7.  An ID token whose claims lack [iss], or, under the expected
    issuer, lack [aud], or, under the expected issuer, audience and
    authorized party, lack [exp], is not refused with [400]: reading the
    missing claim throws, the exception leaves the handler and no login
    is filed.  So a token without [exp] is not accepted, although the
    comparison with the clock decides nothing. *)
Theorem callback_incomplete_claims_throw (w : world) (_req : request_type) (u : url)
    (s : state) (code form : string) (doc : json) (tok : string) (jwt : decoded_jwt) :
  method _req = get ->
  parse_url w (target _req) = Ok u ->
  query u !! "state" = Some "placeholder" ->
  query u !! "code" = Some code ->
  exchange_returns w (exchange_arguments w code) form doc ->
  Json.find "error" doc = None ->
  Json.find "id_token" doc = Some (JStr tok) ->
  jwt_decode w tok = Ok jwt ->
  claims_incomplete w (payload_json jwt) ->
  exists msg s',
    authentication w _req s = (Raises (std_exception msg), s') /\
    stash s' = stash s.
Proof.
  intros Hget Hparse Hst Hcode Hex Herr Hid Hjwt Hinc.
  rewrite (enter_callback _ _ _ _ Hget Hparse).
  destruct (callback_reaches_validation w _req u s code form doc tok jwt
              Hst Hcode Hex Herr Hid Hjwt) as (raw & ->).
  destruct (validation_throws w _req _
              (with_events [EvLog log_debug "Got the following resp back: {}" [AStr raw];
                            EvHttpPost form] s) Hinc) as (msg & s' & Hv & Hs').
  exists msg, s'. split; [exact Hv | exact Hs'].
Qed.

(** Scenario B with a token for alice that carries no [exp]. *)
Lemma callback_incomplete_claims_throw_witness :
  let w := Example.deployment Example.id_token_reply Scenario.claims_without_exp
             (Ok (0, None)) in
  let jwt := mkJwt (JObj [("alg", JStr "RS256")]) Scenario.claims_without_exp in
  claims_incomplete w (payload_json jwt) /\
  exists msg s',
    authentication w Example.callback_request Example.start =
      (Raises (std_exception msg), s') /\
    stash s' = stash Example.start.
Proof.
  cbv zeta.
  assert (claims_incomplete
            (Example.deployment Example.id_token_reply Scenario.claims_without_exp
               (Ok (0, None)))
            Scenario.claims_without_exp) as Hinc.
  { apply exp_missing; try reflexivity. left. reflexivity. }
  split; [exact Hinc |].
  apply (callback_incomplete_claims_throw
           (Example.deployment Example.id_token_reply Scenario.claims_without_exp
              (Ok (0, None)))
           Example.callback_request Example.callback_url Example.start
           "abc123" Example.callback_form Example.id_token_reply "eyJ.eyJ.sig"
           (mkJwt (JObj [("alg", JStr "RS256")]) Scenario.claims_without_exp));
    [reflexivity | reflexivity | reflexivity | reflexivity
    | split; [reflexivity | split; [reflexivity |
        exists "(response body)"; split; reflexivity]]
    | reflexivity | reflexivity | reflexivity | exact Hinc].
Defined.

End Paths.

(** ** The helper functions at their edges *)
Section Helpers.

#[local] Arguments String.append !_ _ / : simpl nomatch.

Lemma trim_left_blank ws : blank ws = true -> Str.trim_left ws = "".
Proof.
  induction ws as [|c ws IH]; [reflexivity |]. cbn [blank Str.trim_left].
  intros H. apply andb_true_iff in H as [-> Hws]. auto.
Qed.

Lemma trim_right_blank ws : blank ws = true -> Str.trim_right ws = "".
Proof.
  induction ws as [|c ws IH]; [reflexivity |]. cbn [blank Str.trim_right].
  intros H. apply andb_true_iff in H as [-> Hws]. now rewrite IH.
Qed.

Lemma trim_left_blank_app ws d :
  blank ws = true -> Str.trim_left (ws +:+ d) = Str.trim_left d.
Proof.
  induction ws as [|c ws IH]; [reflexivity |]. cbn [blank].
  intros H. apply andb_true_iff in H as [Hc Hws].
  simpl. rewrite Hc. auto.
Qed.

Lemma trim_right_app_blank d ws :
  blank ws = true -> Str.trim_right (d +:+ ws) = Str.trim_right d.
Proof.
  intros Hws. induction d as [|c d IH]; simpl.
  - now apply trim_right_blank.
  - now rewrite IH.
Qed.

Lemma trim_app_blank d ws : blank ws = true -> Str.trim (d +:+ ws) = Str.trim d.
Proof.
  intros Hws. unfold Str.trim. induction d as [|c d IH].
  - simpl. now rewrite (trim_left_blank _ Hws).
  - simpl. destruct (Str.is_space c); [exact IH |].
    change (String c (d +:+ ws)) with (String c d +:+ ws).
    now apply trim_right_app_blank.
Qed.

Lemma trim_surrounded ws1 d ws2 :
  blank ws1 = true -> blank ws2 = true -> Str.trim (ws1 +:+ d +:+ ws2) = Str.trim d.
Proof.
  intros H1 H2. unfold Str.trim at 1.
  rewrite (trim_left_blank_app _ _ H1).
  fold (Str.trim (d +:+ ws2)). now apply trim_app_blank.
Qed.

(** X8.  [decode_username_and_password] does not see white space around
    the encoded credentials: with blanks, tabs or line breaks before and
    after them it logs the same lines and returns the same pair. *)
Theorem decode_username_and_password_trims (w : world) (ws1 data ws2 : string)
    (s : state) :
  blank ws1 = true ->
  blank ws2 = true ->
  decode_username_and_password w (ws1 +:+ data +:+ ws2) s =
  decode_username_and_password w data s.
Proof.
  intros H1 H2. unfold decode_username_and_password.
  now rewrite (trim_surrounded _ _ _ H1 H2).
Qed.

Lemma decode_username_and_password_trims_witness :
  let w := Example.backend_world (Ok (0, Some 1)) in
  (blank "   " = true /\ blank " " = true) /\
  decode_username_and_password w ("   " +:+ "YWxpY2U6c2VjcmV0" +:+ " ") Example.start =
  decode_username_and_password w "YWxpY2U6c2VjcmV0" Example.start.
Proof.
  cbv zeta. split; [split; reflexivity |].
  apply (decode_username_and_password_trims (Example.backend_world (Ok (0, Some 1)))
           "   " "YWxpY2U6c2VjcmV0" " " Example.start); reflexivity.
Defined.

Lemma length_append a b :
  String.length (a +:+ b) = (String.length a + String.length b)%nat.
Proof. induction a as [|c a IH]; simpl; [reflexivity | now rewrite IH]. Qed.

Lemma length_prefix n s : (String.length (Str.prefix n s) <= n)%nat.
Proof.
  unfold Str.prefix. revert s. induction n as [|n IH]; intros s.
  - destruct s; simpl; lia.
  - destruct s as [|c s]; simpl; [lia |]. specialize (IH s). lia.
Qed.

(** X9.  Whatever the decoder does, [decode_username_and_password]
    returns a pair: the username holds no colon (a colon can only be part
    of the password), and username and password together are shorter
    than the decoded size the decoder reports. *)
Theorem credentials_are_split_once (w : world) (data : string) (s : state) :
  exists u p,
    (decode_username_and_password w data s).1 = Returns (u, p) /\
    Str.mem ":" u = false /\
    (String.length u + String.length p <=
     (base64_decode w (Str.trim data) (zeroes max_creds_size) max_creds_size).2)%nat.
Proof.
  rewrite decode_username_and_password_view.
  pose proof (length_prefix
                (base64_decode w (Str.trim data) (zeroes max_creds_size) max_creds_size).2
                (base64_decode w (Str.trim data) (zeroes max_creds_size) max_creds_size).1.2)
    as Hlen.
  unfold decoded_view.
  destruct (base64_decode w (Str.trim data) (zeroes max_creds_size) max_creds_size)
    as [[ec creds] size]. cbn [fst snd] in *.
  destruct (Str.cut ":" (Str.prefix size creds)) as [[u p]|] eqn:Hcut.
  - exists u, p. apply cut_Some in Hcut as [Hv Hu].
    split; [reflexivity |]. split; [exact Hu |].
    rewrite Hv, length_append in Hlen. cbn [String.length] in Hlen. lia.
  - exists "", "". split; [reflexivity |]. split; [reflexivity |]. simpl. lia.
Qed.

Lemma concat_app sep (a : string) (l1 : list string) (b : string) (l2 : list string) :
  String.concat sep ((a :: l1) ++ b :: l2) =
  String.concat sep (a :: l1) +:+ sep +:+ String.concat sep (b :: l2).
Proof.
  revert a. induction l1 as [|c l1 IH]; intros a.
  - reflexivity.
  - change ((a :: c :: l1) ++ b :: l2) with (a :: ((c :: l1) ++ b :: l2)).
    cbn [app]. rewrite !concat_cons2. cbn [app] in IH. rewrite IH.
    now rewrite !append_assoc.
Qed.

(** X10.  The encoder distributes over the pieces of a map's iteration
    order: the encoding of one non-empty run of pairs followed by another
    is the encoding of the first, an ampersand, and the encoding of the
    second; no separator is put before the first pair or after the
    last. *)
Theorem encode_body_app (a : string * string) (l1 : list (string * string))
    (b : string * string) (l2 : list (string * string)) :
  exists x y,
    encode_body (a :: l1) = Some x /\
    encode_body (b :: l2) = Some y /\
    encode_body ((a :: l1) ++ b :: l2) = Some (x +:+ "&" +:+ y).
Proof.
  do 2 eexists. split; [apply encode_body_cons |].
  split; [apply encode_body_cons |].
  change ((a :: l1) ++ b :: l2) with (a :: (l1 ++ b :: l2)).
  rewrite encode_body_cons.
  change (a :: (l1 ++ b :: l2)) with ((a :: l1) ++ b :: l2).
  rewrite map_app. cbn [map]. now rewrite concat_app.
Qed.

End Helpers.

(** ** The token endpoint: one attempt *)
Section Attempts.

Lemma posts_app a b : posts (a ++ b) = (posts a + posts b)%nat.
Proof. unfold posts. now rewrite filter_app, length_app. Qed.

Lemma no_post_refl s : no_post s s.
Proof. exists []. split; reflexivity. Qed.

Lemma no_post_trans a b c : no_post a b -> no_post b c -> no_post a c.
Proof.
  intros (evs1 & H1 & P1) (evs2 & H2 & P2). exists (evs2 ++ evs1). split.
  - rewrite H2, H1. apply app_assoc.
  - rewrite posts_app. lia.
Qed.

Lemma silent_log lvl fmt args : respects no_post (log lvl fmt args).
Proof. intros s. exists [EvLog lvl fmt args]. split; reflexivity. Qed.

Lemma silent_now w : respects no_post (now w).
Proof. intros s. exists []. split; reflexivity. Qed.

Lemma silent_insert w info : respects no_post (process_stash_insert w info).
Proof. intros s. exists []. split; reflexivity. Qed.

Lemma silent_decode_username_and_password w data :
  respects no_post (decode_username_and_password w data).
Proof.
  intros s. rewrite decode_run. exists (decode_log w data). split; reflexivity.
Qed.

Ltac settle_posts :=
  first [ exists []; split; reflexivity
        | eexists [_]; split; reflexivity
        | eexists [_; _]; split; reflexivity
        | eexists [_; _; _]; split; reflexivity
        | eexists [_; _; _; _]; split; reflexivity ].

Lemma silent_check_auth_credentials w u p :
  respects no_post (check_auth_credentials w u p).
Proof.
  intros s. unfold check_auth_credentials, with_free_memory, bind, lift.
  destruct (obfuscate_password w p (rodsadmin_password w)) as [obf|e0];
    [| settle_posts].
  destruct (get_connection w (rodsadmin_username w)) as [[]|e0]; [| settle_posts].
  destruct (rc_check_auth_credentials w _) as [[ec correct]|e0]; [| settle_posts].
  destruct correct as [v|]; cbv beta iota zeta delta [emit ret log free snd fst];
    destruct (ec <? 0); settle_posts.
Qed.

Ltac silent :=
  frame_with no_post_refl no_post_trans
    ltac:(first [ apply silent_log | apply silent_now | apply silent_insert
                | apply silent_decode_username_and_password
                | apply silent_check_auth_credentials ]).

Lemma once_of_silent {A} (m : M A) : respects no_post m -> posts_at_most_once m.
Proof. intros H s. destruct (H s) as (evs & He & Hp). exists evs. split; [exact He | lia]. Qed.

Lemma once_after_silent {A B} (m : M A) (k : A -> M B) :
  respects no_post m -> (forall a, posts_at_most_once (k a)) ->
  posts_at_most_once (bind m k).
Proof.
  intros Hm Hk s. unfold bind. destruct (Hm s) as (evs1 & H1 & P1).
  destruct (m s) as [[a|e|] s1]; cbn [snd] in *;
    try (exists evs1; split; [exact H1 | lia]).
  destruct (Hk a s1) as (evs2 & H2 & P2). exists (evs2 ++ evs1). split.
  - rewrite H2, H1. apply app_assoc.
  - rewrite posts_app. lia.
Qed.

Lemma once_before_silent {A B} (m : M A) (k : A -> M B) :
  posts_at_most_once m -> (forall a, respects no_post (k a)) ->
  posts_at_most_once (bind m k).
Proof.
  intros Hm Hk s. unfold bind. destruct (Hm s) as (evs1 & H1 & P1).
  destruct (m s) as [[a|e|] s1]; cbn [snd] in *;
    try (exists evs1; split; [exact H1 | lia]).
  destruct (Hk a s1) as (evs2 & H2 & P2). exists (evs2 ++ evs1). split.
  - rewrite H2, H1. apply app_assoc.
  - rewrite posts_app. lia.
Qed.

Lemma once_hit_token_endpoint w form : posts_at_most_once (hit_token_endpoint w form).
Proof.
  intros s. unfold hit_token_endpoint, bind, lift.
  destruct (token_endpoint_connect w) as [[]|e]; [| exists []; split; [reflexivity | unfold posts; simpl; lia]].
  cbn [emit]. destruct (token_endpoint_reply w form) as [raw|e];
    [| eexists [_]; split; [reflexivity | unfold posts; simpl; lia]].
  cbn [log emit]. destruct (json_parse w raw);
    eexists [_; _]; (split; [reflexivity | unfold posts; simpl; lia]).
Qed.

Lemma silent_issue_for_irods_username w _req claims :
  respects no_post (issue_for_irods_username w _req claims).
Proof. unfold issue_for_irods_username, issue. silent. Qed.

Lemma silent_id_token_validation w _req claims :
  respects no_post (id_token_validation w _req claims).
Proof.
  unfold id_token_validation.
  frame_with no_post_refl no_post_trans
    ltac:(first [ apply silent_log | apply silent_now
                | apply silent_issue_for_irods_username ]).
Qed.

Lemma silent_is_error_response doc : respects no_post (is_error_response doc).
Proof. unfold is_error_response. silent. Qed.

(** What follows the exchange in both OIDC branches writes no request. *)
Lemma once_exchange {A} w (args : option string) (k : json -> M A) :
  (forall doc, respects no_post (k doc)) ->
  posts_at_most_once
    (let* encoded_args := defined args in
     let* oidc_response := hit_token_endpoint w encoded_args in
     k oidc_response).
Proof.
  intros Hk. apply once_after_silent; [silent | intros form].
  apply once_before_silent; [apply once_hit_token_endpoint | exact Hk].
Qed.

Lemma once_authentication w _req : posts_at_most_once (authentication w _req).
Proof.
  unfold authentication. destruct (method _req).
  - apply once_after_silent; [silent | intros [u|]].
    + unfold callback.
      destruct (query u !! "state") as [st|]; [| apply once_of_silent; silent].
      destruct (negb (is_state_valid st)); [apply once_of_silent; silent |].
      destruct (query u !! "code") as [code|]; [| apply once_of_silent; silent].
      cbv zeta. apply once_exchange. intros doc.
      frame_with no_post_refl no_post_trans
        ltac:(first [ apply silent_is_error_response
                    | apply silent_id_token_validation ]).
    + apply once_of_silent. unfold initiate. silent.
  - unfold post_credentials.
    destruct (authorization _req) as [value|]; [| apply once_of_silent; silent].
    apply once_after_silent; [silent | intros _].
    destruct (Str.find "Basic " value) as [pos|].
    + apply once_of_silent. unfold basic_bridge, issue. silent.
    + destruct (Str.find "iRODS " value) as [pos|]; [| apply once_of_silent; silent].
      apply once_after_silent; [silent | intros [u p]].
      unfold password_grant.
      destruct (Str.empty u || Str.empty p); [apply once_of_silent; silent |].
      cbv zeta. apply once_exchange. intros doc.
      frame_with no_post_refl no_post_trans
        ltac:(first [ apply silent_is_error_response
                    | apply silent_issue_for_irods_username ]).
  - apply once_of_silent. silent.
Qed.

(** X12.  Whatever the request and whatever the collaborators do, a run
    of the handler writes at most one request to the token endpoint:
    nothing is retried, neither after a refusal nor after a failure. *)
Theorem authentication_posts_at_most_once (w : world) (_req : request_type)
    (s : state) :
  exists evs,
    trace (authentication w _req s).2 = evs ++ trace s /\ (posts evs <= 1)%nat.
Proof. exact (once_authentication w _req s). Qed.

(** X13.  The Basic branch and the redirect write no request to the
    token endpoint at all: a Basic login is decided by the backend
    alone. *)
Theorem basic_and_initiate_never_post (w : world) (_req : request_type) (s : state) :
  (exists value pos,
     method _req = post /\ authorization _req = Some value /\
     Str.find "Basic " value = Some pos) \/
  (method _req = get /\ exists e, parse_url w (target _req) = Throw (irods_exception e)) ->
  exists evs,
    trace (authentication w _req s).2 = evs ++ trace s /\ posts evs = 0%nat.
Proof.
  intros Hcase. revert s. change (respects no_post (authentication w _req)).
  unfold authentication.
  destruct Hcase as [(value & pos & -> & Ha & Hb) | (-> & e & Hp)].
  - unfold post_credentials. rewrite Ha.
    apply (respects_bind _ no_post_trans); [silent | intros _].
    rewrite Hb. unfold basic_bridge, issue. silent.
  - intros s. unfold try_catch, bind at 1 2, lift. rewrite Hp.
    cbn [is_irods_exception ret]. revert s.
    change (respects no_post (initiate w _req)). unfold initiate. silent.
Qed.

Lemma basic_and_initiate_never_post_witness :
  let w := Example.backend_world (Ok (0, Some 1)) in
  let _req := Example.post_request "Basic YWxpY2U6c2VjcmV0" in
  exists evs,
    trace (authentication w _req Example.start).2 = evs ++ trace Example.start /\
    posts evs = 0%nat.
Proof.
  cbv zeta.
  apply (basic_and_initiate_never_post (Example.backend_world (Ok (0, Some 1)))
           (Example.post_request "Basic YWxpY2U6c2VjcmV0") Example.start).
  left. exists "Basic YWxpY2U6c2VjcmV0", 0%nat. repeat split.
Defined.

End Attempts.

(** ** Users without an iRODS name, and requests that cannot be parsed *)
Section Remainder.

Lemma password_grant_reaches_extraction (w : world) (_req : request_type)
    (value : string) (pos : nat) (s : state) (form : string) (doc : json)
    (tok : string) (jwt : decoded_jwt) :
  method _req = post ->
  authorization _req = Some value ->
  Str.find "Basic " value = None ->
  Str.find "iRODS " value = Some pos ->
  (credentials w (Str.substr (pos + 6) value)).1 <> "" ->
  (credentials w (Str.substr (pos + 6) value)).2 <> "" ->
  exchange_returns w
    (password_arguments w (credentials w (Str.substr (pos + 6) value)).1
       (credentials w (Str.substr (pos + 6) value)).2) form doc ->
  Json.find "error" doc = None ->
  Json.find "id_token" doc = Some (JStr tok) ->
  jwt_decode w tok = Ok jwt ->
  exists evs,
    authentication w _req s =
    issue_for_irods_username w _req (payload_json jwt) (with_events evs s).
Proof.
  intros Hm Ha Hb Hi Hu Hp Hex Herr Hid Hjwt.
  rewrite (enter_password_grant w _req value pos s Hm Ha Hb Hi).
  destruct (password_grant_exchange w _req _ _
              (with_events (decode_log w (Str.substr (pos + 6) value))
                 (with_events (header_log value) s)) form doc Hu Hp Hex) as (raw & ->).
  unfold bind at 1. rewrite (is_error_response_false _ _ Herr).
  unfold bind at 1. rewrite (at_found _ _ _ Hid). run.
  unfold bind at 1. rewrite Hjwt. run.
  now eexists [_; _; _; _; _].
Qed.

(** X14.  In the password grant, a token without [irods_username] is
    answered [400] and files nothing, whether it names a
    [preferred_username] or not: that name is logged and never used as
    the login.  When [preferred_username] is present and is not a
    string, reading it throws and the exception leaves the handler. *)
Theorem password_grant_without_irods_username (w : world) (_req : request_type)
    (value : string) (pos : nat) (s : state) (form : string) (doc : json)
    (tok : string) (jwt : decoded_jwt) :
  method _req = post ->
  authorization _req = Some value ->
  Str.find "Basic " value = None ->
  Str.find "iRODS " value = Some pos ->
  let data := Str.substr (pos + 6) value in
  let u := (credentials w data).1 in
  let p := (credentials w data).2 in
  u <> "" -> p <> "" ->
  exchange_returns w (password_arguments w u p) form doc ->
  Json.find "error" doc = None ->
  Json.find "id_token" doc = Some (JStr tok) ->
  jwt_decode w tok = Ok jwt ->
  Json.find "irods_username" (payload_json jwt) = None ->
  match Json.find "preferred_username" (payload_json jwt) with
  | None =>
      exists evs,
        authentication w _req s = (Returns (fail bad_request), with_events evs s) /\
        In (EvLog log_error "{}: No irods user associated with authenticated user [{}]."
              [AStr fn; AStr ""]) evs
  | Some (JStr user) =>
      exists evs,
        authentication w _req s = (Returns (fail bad_request), with_events evs s) /\
        In (EvLog log_error "{}: No irods user associated with authenticated user [{}]."
              [AStr fn; AStr user]) evs
  | Some _ =>
      exists msg s',
        authentication w _req s = (Raises (std_exception msg), s') /\
        stash s' = stash s
  end.
Proof.
  intros Hm Ha Hb Hi. cbv zeta. intros Hu Hp Hex Herr Hid Hjwt Hname.
  destruct (password_grant_reaches_extraction w _req value pos s form doc tok jwt
              Hm Ha Hb Hi Hu Hp Hex Herr Hid Hjwt) as (evs & ->).
  unfold issue_for_irods_username. rewrite (contains_missing _ _ Hname). cbn [negb].
  destruct (Json.find "preferred_username" (payload_json jwt)) as [v|] eqn:Hpref.
  - rewrite (contains_found _ _ _ Hpref). unfold bind.
    rewrite (at_found _ _ _ Hpref).
    destruct v; run; try (do 2 eexists; split; reflexivity).
    exists (EvLog log_error "{}: No irods user associated with authenticated user [{}]."
              [AStr fn; AStr s0] :: evs).
    split; [reflexivity | now left].
  - rewrite (contains_missing _ _ Hpref). unfold bind. run.
    exists (EvLog log_error "{}: No irods user associated with authenticated user [{}]."
              [AStr fn; AStr ""] :: evs).
    split; [reflexivity | now left].
Qed.

(** [POST] with [Authorization: iRODS base64("alice:secret")] and a token
    that names only the [preferred_username] bob. *)
Lemma password_grant_without_irods_username_witness :
  let w := Example.deployment Example.id_token_reply
             Scenario.claims_without_irods_username (Ok (0, None)) in
  let value := "iRODS YWxpY2U6c2VjcmV0" in
  let _req := Example.post_request value in
  Json.find "irods_username" Scenario.claims_without_irods_username = None /\
  exists evs,
    authentication w _req Example.start =
      (Returns (fail bad_request), with_events evs Example.start) /\
    In (EvLog log_error "{}: No irods user associated with authenticated user [{}]."
          [AStr fn; AStr "bob"]) evs.
Proof.
  cbv zeta. split; [reflexivity |].
  apply (password_grant_without_irods_username
           (Example.deployment Example.id_token_reply
              Scenario.claims_without_irods_username (Ok (0, None)))
           (Example.post_request "iRODS YWxpY2U6c2VjcmV0")
           "iRODS YWxpY2U6c2VjcmV0" 0 Example.start Example.password_form
           Example.id_token_reply "eyJ.eyJ.sig"
           (mkJwt (JObj [("alg", JStr "RS256")]) Scenario.claims_without_irods_username));
    [reflexivity | reflexivity | reflexivity | reflexivity | discriminate | discriminate
    | split; [reflexivity | split; [reflexivity |
        exists "(response body)"; split; reflexivity]]
    | reflexivity | reflexivity | reflexivity | reflexivity].
Defined.

(** X15.  Only [irods::exception] turns a GET into the redirect.  When
    [parse_url] throws anything else, the exception leaves the handler
    at once: no redirect, no answer, nothing logged and nothing filed. *)
Theorem get_passes_other_exceptions_on (w : world) (_req : request_type) (s : state)
    (msg : string) :
  method _req = get ->
  parse_url w (target _req) = Throw (std_exception msg) ->
  authentication w _req s = (Raises (std_exception msg), s).
Proof.
  intros Hget Hparse. unfold authentication. rewrite Hget.
  unfold try_catch, bind, lift. now rewrite Hparse.
Qed.

Lemma get_passes_other_exceptions_on_witness :
  parse_url Failing.out_of_memory (target Example.callback_request) =
    Throw (std_exception "std::bad_alloc") /\
  authentication Failing.out_of_memory Example.callback_request Example.start =
    (Raises (std_exception "std::bad_alloc"), Example.start).
Proof.
  split; [reflexivity |].
  apply (get_passes_other_exceptions_on Failing.out_of_memory Example.callback_request
           Example.start "std::bad_alloc"); reflexivity.
Defined.

End Remainder.
